(** * The Vault secret helper ([lib/vault]): cache, remote fetch, env fallback

    A shallow embedding of the secret helper: [cacheKey], [fetchFromVault],
    [getSecret] and [clearVaultCache], over an explicit process state
    (environment, cache, clock, outbound requests, console) and a network
    given as a function from requests to replies. *)

From Stdlib Require Import ZArith String Ascii List Lia.
From stdpp Require Import base option gmap strings pretty.
Import ListNotations.
Local Open Scope string_scope.
Local Open Scope Z_scope.
Local Open Scope list_scope.
Local Set Warnings "-register-all".

(** ** JSON values as the helper sees them *)

Module JS.

(** What [JSON.parse] can produce. Numbers are the integer-valued ones.
    An object is the list of its members in source order; for a repeated
    name the later member wins, as in [JSON.parse]. *)
Inductive json : Type :=
| JNull
| JBool (b : bool)
| JNum (z : Z)
| JStr (s : string)
| JArr (l : list json)
| JObj (members : list (string * json)).

(** A JavaScript value that may be [undefined]. *)
Definition jsvalue := option json.

(** ToBoolean on a JSON value. *)
Definition truthy (v : json) : bool :=
  match v with
  | JNull => false
  | JBool b => b
  | JNum z => negb (z =? 0)
  | JStr s => negb (String.eqb s "")
  | JArr _ | JObj _ => true
  end.

(** ToBoolean on a value that may be [undefined]. *)
Definition truthy_value (v : jsvalue) : bool :=
  match v with
  | None => false
  | Some j => truthy j
  end.

(** ToBoolean on [string | undefined], the type of [process.env.X]. *)
Definition truthy_env (v : option string) : bool :=
  match v with
  | None => false
  | Some s => negb (String.eqb s "")
  end.

(** Own member [k] of an object: the last member with that name. *)
Fixpoint member (k : string) (ms : list (string * json)) : jsvalue :=
  match ms with
  | [] => None
  | (k', v) :: rest =>
      match member k rest with
      | Some w => Some w
      | None => if String.eqb k k' then Some v else None
      end
  end.

(** Property read [v[k]] (or [v.k]) on a JSON value: the own member of an
    object, [undefined] on anything else. Members inherited from a
    prototype ([constructor], [toString], [length], array indices, ...)
    are not part of this model; none of them is named [data], [auth] or
    [client_token]. *)
Definition get (v : json) (k : string) : jsvalue :=
  match v with
  | JObj ms => member k ms
  | _ => None
  end.

(** Optional chaining [v?.k] on a value that may be [undefined]; [null]
    short-circuits to [undefined] too. *)
Definition get_opt (v : jsvalue) (k : string) : jsvalue :=
  match v with
  | None | Some JNull => None
  | Some j => get j k
  end.

(** [Array.prototype.join(",")] given the text of each element. *)
Fixpoint join_comma (parts : list string) : string :=
  match parts with
  | [] => ""
  | [p] => p
  | p :: rest => p +:+ "," +:+ join_comma rest
  end.

(** [String(v)], also what a template literal does to [v]. *)
Fixpoint to_string (v : json) : string :=
  match v with
  | JNull => "null"
  | JBool true => "true"
  | JBool false => "false"
  | JNum z => pretty z
  | JStr s => s
  | JArr l =>
      join_comma
        (map (fun x => match x with JNull => "" | _ => to_string x end) l)
  | JObj _ => "[object Object]"
  end.

End JS.

Import JS.

(** ** HTTP as [fetch] shows it *)

Inductive Method := GET | POST.

Record Request := mkRequest {
  method : Method;
  url : string;
  headers : list (string * string);
  body : option json            (* the value handed to [JSON.stringify] *)
}.

(** A response: its status, what [json()] resolves to ([None]: it rejects)
    and what [text()] resolves to ([None]: it rejects). *)
Record Response := mkResponse {
  status : Z;
  json_body : option json;
  text_body : option string
}.

(** [Response.ok]: the status is in the range 200-299. *)
Definition ok (r : Response) : bool :=
  (200 <=? status r) && (status r <=? 299).

(** The outcome of one [fetch]: the promise rejects (network error) or
    resolves to a response. *)
Inductive FetchResult :=
| Rejected (msg : string)
| Resolved (r : Response).

(** A reply also says how long the call was in flight, in ms. *)
Record Reply := mkReply {
  result : FetchResult;
  latency : N
}.

(** The network: the reply to a request issued at a given time after the
    given earlier requests (most recent first). *)
Definition Network := Z -> list Request -> Request -> Reply.

(** ** Errors thrown inside the helper *)

Inductive Error :=
| AddrNotConfigured
| AppRoleLoginFailed (st : Z)
| AppRoleNoClientToken
| NoVaultAuth
| SecretFetchFailed (st : Z) (text : string)
| FetchRejected (msg : string).

Definition message (e : Error) : string :=
  match e with
  | AddrNotConfigured => "VAULT_ADDR not configured"
  | AppRoleLoginFailed st => "Vault AppRole login failed: " +:+ pretty st
  | AppRoleNoClientToken => "Vault AppRole login did not return client_token"
  | NoVaultAuth => "No Vault auth available (VAULT_TOKEN or AppRole required)"
  | SecretFetchFailed st text =>
      "Vault secret fetch failed: " +:+ pretty st +:+ " " +:+ text
  | FetchRejected msg => msg
  end.

(** ** Process state *)

(** [type Cached = { value: string | null; expiresAt: number }] *)
Record Cached := mkCached {
  value : option string;
  expiresAt : Z
}.

Record State := mkState {
  env : gmap string string;       (* process.env *)
  cache : gmap string Cached;     (* the module-level Map *)
  now : Z;                        (* what Date.now() returns *)
  requests : list Request;        (* fetch calls so far, most recent first *)
  console : list string           (* console.error lines, most recent first *)
}.

Definition with_cache (c : gmap string Cached) (s : State) : State :=
  mkState (env s) c (now s) (requests s) (console s).

Definition with_console (l : list string) (s : State) : State :=
  mkState (env s) (cache s) (now s) (requests s) l.

(** Time passing between two calls of the helper. *)
Definition advance (d : N) (s : State) : State :=
  mkState (env s) (cache s) (now s + Z.of_N d) (requests s) (console s).

(** ** The monad of the helper: state, and a thrown error or a result *)

Inductive Outcome (A : Type) :=
| Returns (a : A)
| Throws (e : Error).
Arguments Returns {A} a.
Arguments Throws {A} e.

Definition M (A : Type) : Type := State -> Outcome A * State.

Definition ret {A} (a : A) : M A := fun s => (Returns a, s).

Definition throw {A} (e : Error) : M A := fun s => (Throws e, s).

Definition bind {A B} (m : M A) (f : A -> M B) : M B :=
  fun s =>
    match m s with
    | (Returns a, s') => f a s'
    | (Throws e, s') => (Throws e, s')
    end.

(** [try { m } catch (e) { h e }] *)
Definition try_catch {A} (m : M A) (h : Error -> M A) : M A :=
  fun s =>
    match m s with
    | (Returns a, s') => (Returns a, s')
    | (Throws e, s') => h e s'
    end.

Notation "'let*' x ':=' m 'in' k" := (bind m (fun x => k))
  (at level 10, x name, m at level 100, k at level 200).
Notation "'do*' m 'in' k" := (bind m (fun _ => k))
  (at level 10, m at level 100, k at level 200).

Definition Date_now : M Z := fun s => (Returns (now s), s).

Definition getenv (name : string) : M (option string) :=
  fun s => (Returns (env s !! name), s).

Definition cache_get (k : string) : M (option Cached) :=
  fun s => (Returns (cache s !! k), s).

Definition cache_set (k : string) (c : Cached) : M unit :=
  fun s => (Returns tt, with_cache (<[k := c]> (cache s)) s).

(** [console.error(prefix, e.message)], kept as one line. *)
Definition console_error (line : string) : M unit :=
  fun s => (Returns tt, with_console (line :: console s) s).

(** ** The two regular-expression replacements *)

(** [s.replace(/\/$/, "")]: drop one slash at the very end. *)
Fixpoint strip_trailing_slash (s : string) : string :=
  match s with
  | EmptyString => EmptyString
  | String c EmptyString => if Ascii.eqb c "/" then EmptyString else s
  | String c rest => String c (strip_trailing_slash rest)
  end.

(** [s.replace(/^\/+/, "")]: drop every slash at the very start. *)
Fixpoint strip_leading_slashes (s : string) : string :=
  match s with
  | String c rest => if Ascii.eqb c "/" then strip_leading_slashes rest else s
  | EmptyString => EmptyString
  end.

(** ** The helper *)

(** [5 * 60 * 1000], the value of [CACHE_TTL_MS] when VAULT_CACHE_TTL_MS
    is unset or empty. *)
Definition default_CACHE_TTL_MS : Z := 5 * 60 * 1000.

Definition cacheKey (path keyName : string) : string :=
  path +:+ "#" +:+ keyName.

(** The entry of a [cache.get] that [getSecret] serves at time [t]:
    [cached && cached.expiresAt > now]. *)
Definition live (t : Z) (cached : option Cached) : option Cached :=
  match cached with
  | Some c => if expiresAt c >? t then Some c else None
  | None => None
  end.

(** The end of [fetchFromVault]: KV v2 [{data: {data: ...}}], KV v1
    [{data: ...}], or the body itself. *)
Definition unwrap (data : json) : json :=
  match (if truthy data then get data "data" else None) with
  | Some d1 =>
      if truthy d1 then
        match get d1 "data" with
        | Some d2 => if truthy d2 then d2 else d1
        | None => d1
        end
      else data
  | None => data
  end.

Definition login_request (addr role_id secret_id : string) : Request :=
  mkRequest POST
    (strip_trailing_slash addr +:+ "/v1/auth/approle/login")
    [("Content-Type", "application/json")]
    (Some (JObj [("role_id", JStr role_id); ("secret_id", JStr secret_id)])).

Definition read_request (addr path : string) (token : json) : Request :=
  mkRequest GET
    (strip_trailing_slash addr +:+ "/v1/" +:+ strip_leading_slashes path)
    [("Authorization", "Bearer " +:+ to_string token);
     ("Accept", "application/json")]
    None.

Section Helper.

(** [CACHE_TTL_MS] is computed once when the module is loaded, from
    VAULT_CACHE_TTL_MS or the default; here it is any integer number of
    milliseconds. *)
Variable CACHE_TTL_MS : Z.

Variable net : Network.

(** [await fetch(url, init)]: the request is recorded, the clock moves by
    the time in flight, and the promise resolves or rejects. *)
Definition fetch (req : Request) : M Response :=
  fun s =>
    let r := net (now s) (requests s) req in
    let s' := mkState (env s) (cache s) (now s + Z.of_N (latency r))
                      (req :: requests s) (console s) in
    match result r with
    | Rejected msg => (Throws (FetchRejected msg), s')
    | Resolved resp => (Returns resp, s')
    end.

Definition fetchFromVault (path : string) : M json :=
  let* addr := getenv "VAULT_ADDR" in
  if negb (truthy_env addr) then throw AddrNotConfigured else
  let addr := default "" addr in
  (* Prefer VAULT_TOKEN, otherwise AppRole *)
  let* env_token := getenv "VAULT_TOKEN" in
  let* role_id := getenv "VAULT_ROLE_ID" in
  let* secret_id := getenv "VAULT_SECRET_ID" in
  let* token :=
    (if negb (truthy_env env_token)
        && truthy_env role_id && truthy_env secret_id
     then
       let* resp :=
         fetch (login_request addr (default "" role_id) (default "" secret_id)) in
       if negb (ok resp) then throw (AppRoleLoginFailed (status resp)) else
       let body := default (JObj []) (json_body resp) in
       let token := get_opt (get_opt (Some body) "auth") "client_token" in
       if negb (truthy_value token) then throw AppRoleNoClientToken else
       ret token
     else ret (JStr <$> env_token)) in
  match token with
  | Some tok =>
      if negb (truthy tok) then throw NoVaultAuth else
      let* res := fetch (read_request addr path tok) in
      if negb (ok res) then
        let text := default "" (text_body res) in
        throw (SecretFetchFailed (status res) text)
      else
      let data := default (JObj []) (json_body res) in
      ret (unwrap data)
  | None => throw NoVaultAuth
  end.

Definition getSecret (secretPath keyName : string) : M (option string) :=
  let k := cacheKey secretPath keyName in
  let* t := Date_now in
  let* cached := cache_get k in
  match live t cached with
  | Some c => ret (value c)
  | None =>
      try_catch
        (let* data := fetchFromVault secretPath in
         let value :=
           if truthy data then to_string <$> get data keyName else None in
         let* t' := Date_now in
         do* cache_set k (mkCached value (t' + CACHE_TTL_MS)) in
         match value with
         | None =>
             (* Fall back to env var if key missing in Vault *)
             let* envVal := getenv keyName in
             if truthy_env envVal then ret envVal else ret value
         | Some _ => ret value
         end)
        (fun e =>
           (* Vault fetch failed: fall back to env *)
           do* console_error
                 ("Vault fetch failed, falling back to env: " +:+ message e) in
           let* envVal := getenv keyName in
           let* t' := Date_now in
           (* Cache the env fallback briefly *)
           do* cache_set k
                 (mkCached envVal (t' + Z.min CACHE_TTL_MS (30 * 1000))) in
           ret envVal)
  end.

Definition clearVaultCache : M unit :=
  fun s => (Returns tt, with_cache ∅ s).

End Helper.

(** ** Vocabulary of the statements *)

(** A store address and one of the two credentials are configured. *)
Definition store_ready (s : State) : bool :=
  truthy_env (env s !! "VAULT_ADDR")
  && (truthy_env (env s !! "VAULT_TOKEN")
      || (truthy_env (env s !! "VAULT_ROLE_ID")
          && truthy_env (env s !! "VAULT_SECRET_ID"))).

(** [s'] is [s] after some requests were sent: same environment, same
    console, a later clock and a longer list of requests. *)
Definition sent (new : list Request) (s s' : State) : Prop :=
  env s' = env s /\ console s' = console s /\ now s <= now s' /\
  requests s' = new ++ requests s.

(** Going from [s] to [s'] took a trip through [fetchFromVault]: a request
    went out or a failure was reported on the console; with a store that
    is ready, a request went out. *)
Definition resolved_afresh (s s' : State) : Prop :=
  (length (requests s) + length (console s)
   < length (requests s') + length (console s'))%nat /\
  (store_ready s = true -> (length (requests s) < length (requests s'))%nat).

(** What [getSecret] reads out of the collection for [keyName]:
    [(data && typeof data[keyName] !== "undefined")
       ? String(data[keyName]) : null]. *)
Definition field (data : json) (keyName : string) : option string :=
  if truthy data then to_string <$> get data keyName else None.

(** A computation that neither reads nor writes the cache. *)
Definition cache_blind {A} (m : M A) : Prop :=
  forall c s, m (with_cache c s) = ((m s).1, with_cache c (m s).2).

(** A computation that leaves the cache alone and only sends requests. *)
Definition framed {A} (m : M A) : Prop :=
  forall s, cache (m s).2 = cache s /\ exists new, sent new s (m s).2.


(** The two envelope shapes around a single field [K] with text [V]. *)
Definition kv2_body (K V : string) : json :=
  JObj [("data", JObj [("data", JObj [(K, JStr V)])])].


(** ** Sample processes and stores *)

(** A process just started at clock 1000 with the given environment. *)
Definition boot (vars : list (string * string)) : State :=
  mkState (list_to_map vars) ∅ 1000 [] [].

(** A store that answers every request with the given status and no body,
    after 7 ms. *)
Definition refusing (st : Z) : Network :=
  fun _ _ _ => mkReply (Resolved (mkResponse st None (Some "denied"))) 7.

(** A store that answers a login with a client token and a read with the
    given body, each after 20 ms. *)
Definition serving (body : json) : Network :=
  fun _ _ req =>
    match method req with
    | POST =>
        mkReply
          (Resolved
             (mkResponse 200
                (Some (JObj [("auth", JObj [("client_token", JStr "issued")])]))
                None))
          20
    | GET => mkReply (Resolved (mkResponse 200 (Some body) None)) 20
    end.

(** Environments: role/secret pair only; static token and pair. *)
Definition approle_vars : list (string * string) :=
  [("VAULT_ADDR", "http://vault:8200"); ("VAULT_ROLE_ID", "r");
   ("VAULT_SECRET_ID", "s"); ("K", "from-env")].

Definition token_vars : list (string * string) :=
  [("VAULT_ADDR", "http://vault:8200/"); ("VAULT_TOKEN", "t");
   ("VAULT_ROLE_ID", "r"); ("VAULT_SECRET_ID", "s"); ("K", "from-env")].

(** No store address at all, and a store address that is the empty
    string. *)
Definition storeless_vars : list (string * string) :=
  [("K", "V")].

Definition storeless_key_vars : list (string * string) :=
  [("VAULT_ADDR", ""); ("K", "V")].

(** A store that cannot be reached: every [fetch] rejects after 3 ms. *)
Definition unreachable : Network :=
  fun _ _ _ => mkReply (Rejected "fetch failed") 3.

(** A process at clock 1000, without store address, whose cache holds one
    entry, under [key], that expires at [expires]. *)
Definition cached_process (key : string) (expires : Z) : State :=
  mkState (list_to_map storeless_vars)
    {[ key := mkCached (Some "old") expires ]} 1000 [] [].

Definition brightdata_path : string := "secret/data/dealstream/brightdata".

(** The first call for a key that the fetched collection does not have,
    while the environment has it. *)
Definition absent_key_call : Outcome (option string) * State :=
  getSecret default_CACHE_TTL_MS (serving (kv2_body "OTHER" "x"))
    brightdata_path "K" (boot token_vars).

(** ** Vocabulary of the further statements *)

(** The requests one call of [getSecret] for [path] may send. *)
Inductive traffic (path : string) : list Request -> Prop :=
| traffic_none : traffic path []
| traffic_read addr tok : traffic path [read_request addr path tok]
| traffic_login addr role secret :
    traffic path [login_request addr role secret]
| traffic_login_read addr role secret tok :
    traffic path
      [read_request addr path tok; login_request addr role secret].

(** What a process does with the helper, one step at a time. *)
Inductive op :=
| Resolve (path keyName : string)
| Clear
| Wait (d : N).

Definition step (ttl : Z) (net : Network) (o : op) (s : State) : State :=
  match o with
  | Resolve path keyName => (getSecret ttl net path keyName s).2
  | Clear => (clearVaultCache s).2
  | Wait d => advance d s
  end.

Definition run (ttl : Z) (net : Network) (ops : list op) (s : State) : State :=
  fold_left (fun s o => step ttl net o s) ops s.

(** No entry of the cache expires later than [ttl] ms from now. *)
Definition cache_bounded (ttl : Z) (s : State) : Prop :=
  forall key c, cache s !! key = Some c -> expiresAt c <= now s + ttl.

(** [s] contains the character ["#"]. *)
Fixpoint has_hash (s : string) : bool :=
  match s with
  | EmptyString => false
  | String c rest => Ascii.eqb c "#" || has_hash rest
  end.


(** The state left by the environment fallback after [fetchFromVault]
    failed with [e] in state [s1]. *)
Definition fallen_back (ttl : Z) (key keyName : string) (e : Error)
    (s1 : State) : State :=
  mkState (env s1)
    (<[key := mkCached (env s1 !! keyName)
                (now s1 + Z.min ttl (30 * 1000))]> (cache s1))
    (now s1) (requests s1)
    (("Vault fetch failed, falling back to env: " +:+ message e)
       :: console s1).
(** * The Bright Data helpers ([lib/brightdata-datasets]) *)

Definition BASE : string := "https://api.brightdata.com/marketplace/datasets".

(** ** [encodeURIComponent]

    A string is its UTF-8 bytes. [encodeURIComponent] keeps the unreserved
    ASCII characters and writes every other character as the [%XX] escapes
    of its UTF-8 bytes, in upper-case hexadecimal: on the bytes, every
    byte that is not an unreserved ASCII character becomes [%XX]. (The
    strings on which it throws, those with a lone surrogate, have no UTF-8
    form.) *)

Definition between (lo hi c : ascii) : bool :=
  (N_of_ascii lo <=? N_of_ascii c)%N && (N_of_ascii c <=? N_of_ascii hi)%N.

(** [A-Z a-z 0-9 - _ . ! ~ * ' ( )] *)
Definition unreserved (c : ascii) : bool :=
  between "A" "Z" c || between "a" "z" c || between "0" "9" c
  || existsb (Ascii.eqb c)
       ["-"; "_"; "."; "!"; "~"; "*"; "'"; "("; ")"]%char.

Definition hex_digit (n : N) : ascii :=
  if (n <? 10)%N then ascii_of_N (48 + n) else ascii_of_N (55 + n).

Definition percent_escape (c : ascii) : string :=
  String "%"
    (String (hex_digit (N_of_ascii c / 16))
       (String (hex_digit (N_of_ascii c mod 16)) EmptyString)).

(** The value of a hexadecimal digit. *)
Definition hex_value (c : ascii) : N :=
  if (N_of_ascii c <? 58)%N then N_of_ascii c - 48 else N_of_ascii c - 55.

Fixpoint encodeURIComponent (s : string) : string :=
  match s with
  | EmptyString => EmptyString
  | String c rest =>
      (if unreserved c then String c EmptyString else percent_escape c)
      +:+ encodeURIComponent rest
  end.

(** ** The endpoint addresses *)

Definition marketplaceFilterUrl : string := BASE +:+ "/filter".

Definition snapshotMetaUrl (snapshotId : string) : string :=
  BASE +:+ "/snapshots/" +:+ encodeURIComponent snapshotId +:+ "/meta".

Definition snapshotPartsUrl (snapshotId : string) : string :=
  BASE +:+ "/snapshots/" +:+ encodeURIComponent snapshotId +:+ "/parts".

Definition snapshotDownloadUrl (snapshotId : string) : string :=
  BASE +:+ "/snapshots/" +:+ encodeURIComponent snapshotId +:+ "/download".

Definition deliverSnapshotUrl (snapshotId : string) : string :=
  BASE +:+ "/snapshots/" +:+ encodeURIComponent snapshotId +:+ "/deliver".

Definition datasetMetadataUrl (datasetId : string) : string :=
  BASE +:+ "/" +:+ encodeURIComponent datasetId +:+ "/metadata".

(** ** [ensureToken] *)

(** What [ensureToken] ends in: the token, its own error
    ["Missing BRIGHTDATA_API_TOKEN (Vault and env fallback failed)"], or
    an error thrown by [getSecret]. *)
Inductive TokenOutcome :=
| Token (t : string)
| MissingToken
| VaultError (e : Error).

Definition ensureToken (ttl : Z) (net : Network)
  : State -> TokenOutcome * State :=
  fun s =>
    match getSecret ttl net "secret/data/dealstream/brightdata"
            "BRIGHTDATA_API_TOKEN" s with
    | (Returns token, s') =>
        if negb (truthy_env token) then (MissingToken, s')
        else (Token (default "" token), s')
    | (Throws e, s') => (VaultError e, s')
    end.

(** ** [applyDryRunGuard] *)

(** A payload: its [limit], absent or an integer number, and its other
    members. *)
Record Payload := mkPayload {
  limit : option Z;
  others : list (string * json)
}.

(** [opts?: { dryRun?: boolean; softCap?: number }] *)
Record GuardOpts := mkGuardOpts {
  dryRun : option bool;
  softCap : option Z
}.

Definition applyDryRunGuard (payload : option Payload)
    (opts : option GuardOpts) : Payload :=
  let payload := default (mkPayload None []) payload in
  let dryRun := default false (opts ≫= dryRun) in
  let softCap := opts ≫= softCap in
  let out := payload in
  if dryRun then
    match limit out with
    | None => mkPayload (Some 1) (others out)
    | Some l => mkPayload (Some (Z.min l 1)) (others out)
    end
  else
    match softCap, limit out with
    | Some cap, Some l =>
        if negb (cap =? 0) then mkPayload (Some (Z.min l cap)) (others out)
        else out
    | _, _ => out
    end.
(** * Logging to Supabase ([lib/supabase]) and the callers of the helper *)

(** ** The server: the process and the [bd_logs] table *)

(** A row of [bd_logs] as [logBrightDataInteraction] builds it;
    [created_at] is the instant that [new Date().toISOString()] writes
    out. *)
Record LogRow := mkLogRow {
  row_source : string;
  row_endpoint : string;
  row_method : string;
  row_request : json;
  row_response : json;
  row_status : string;
  row_meta : json;
  created_at : Z
}.

Record Server := mkServer {
  process : State;
  bd_logs : list LogRow         (* rows inserted so far, most recent first *)
}.

Definition with_process (s : State) (sv : Server) : Server :=
  mkServer s (bd_logs sv).

(** What [supabase.from('bd_logs').insert(payload)] comes to: the row is
    in, the client reports an error, or the promise rejects. *)
Inductive InsertOutcome :=
| Inserted
| InsertError (error : string)
| InsertRejected (name message : string).

(** The parts of the outside world that the model of the vault helper
    does not have. *)
Record World := mkWorld {
  (* [process.env.NEXT_PUBLIC_SUPABASE_URL || process.env.SUPABASE_URL]
     and [process.env.SUPABASE_SERVICE_ROLE_KEY ||
     process.env.SUPABASE_ANON_KEY], read when [lib/supabase] is loaded *)
  SUPABASE_URL : option string;
  SUPABASE_ANON_KEY : option string;
  (* [createClient] throws, with this name and message *)
  createClient_throws : option (string * string);
  (* the outcome of an insert, given the rows already in *)
  insert : list LogRow -> LogRow -> InsertOutcome;
  (* [res.headers.get("Content-Type")] of an upstream response *)
  content_type_of : Response -> option string;
  (* what the rejection of [res.text()] throws *)
  text_rejection : string * string;
  (* the messages of the engine's TypeError for destructuring [null], and
     of the Response constructor's RangeError and TypeError *)
  destructure_message : string;
  status_range_message : string;
  null_body_message : string
}.

(** ** The monad of the callers: a thrown error has a name and a message *)

Inductive Attempt (A : Type) :=
| Done (a : A)
| Failed (name message : string).
Arguments Done {A} a.
Arguments Failed {A} name message.

Definition R (A : Type) : Type := Server -> Attempt A * Server.

Definition retR {A} (a : A) : R A := fun sv => (Done a, sv).

Definition raise {A} (name message : string) : R A :=
  fun sv => (Failed name message, sv).

Definition bindR {A B} (m : R A) (f : A -> R B) : R B :=
  fun sv =>
    match m sv with
    | (Done a, sv') => f a sv'
    | (Failed name message, sv') => (Failed name message, sv')
    end.

(** [try { m } catch (e) { h e }] *)
Definition catchR {A} (m : R A) (h : string -> string -> R A) : R A :=
  fun sv =>
    match m sv with
    | (Done a, sv') => (Done a, sv')
    | (Failed name message, sv') => h name message sv'
    end.

Notation "'let+' x ':=' m 'in' k" := (bindR m (fun x => k))
  (at level 10, x name, m at level 100, k at level 200).
Notation "'do+' m 'in' k" := (bindR m (fun _ => k))
  (at level 10, m at level 100, k at level 200).

(** [err.message || String(err)]: the message, or the name when the
    message is empty. *)
Definition detail (name message : string) : string :=
  if String.eqb message "" then name else message.

(** The name of an error of the vault helper: a rejected [fetch] throws a
    [TypeError], the helper's own errors are plain [Error]s. *)
Definition error_name (e : Error) : string :=
  match e with
  | FetchRejected _ => "TypeError"
  | _ => "Error"
  end.

(** A computation of the process, run on the server. *)
Definition lift {A} (m : M A) : R A :=
  fun sv =>
    match m (process sv) with
    | (Returns a, s') => (Done a, with_process s' sv)
    | (Throws e, s') => (Failed (error_name e) (message e), with_process s' sv)
    end.

Definition nowR : R Z := lift Date_now.

(** [console.error(prefix, x)], kept as one line. *)
Definition console_errorR (line : string) : R unit :=
  lift (console_error line).

(** [await res.text()] *)
Definition res_text (w : World) (res : Response) : R string :=
  match text_body res with
  | Some t => retR t
  | None => raise (text_rejection w).1 (text_rejection w).2
  end.

(** [let data = text; try { data = JSON.parse(text) } catch {}]: the JSON
    value of the body when the text parses, the text itself otherwise. *)
Definition parse_or_text (res : Response) (text : string) : json :=
  default (JStr text) (json_body res).

(** [res.status >= 200 && res.status < 300 ? "ok" : "error"] *)
Definition ok_or_error (st : Z) : string :=
  if (200 <=? st) && (st <? 300) then "ok" else "error".

(** ** [lib/supabase] *)

(** [getSupabaseClient]; the client itself carries nothing the callers
    look at. *)
Definition getSupabaseClient (w : World) : R unit :=
  if negb (truthy_env (SUPABASE_URL w))
     || negb (truthy_env (SUPABASE_ANON_KEY w))
  then
    raise "Error"
      "Supabase.env variables not set: NEXT_PUBLIC_SUPABASE_URL and SUPABASE_SERVICE_ROLE_KEY / SUPABASE_ANON_KEY required"
  else
    match createClient_throws w with
    | Some (name, message) => raise name message
    | None => retR tt
    end.

(** The [opts] of [logBrightDataInteraction]. *)
Record LogOpts := mkLogOpts {
  opt_source : string;
  opt_endpoint : string;
  opt_method : string;
  opt_request : json;
  opt_response : json;
  opt_status : option string;
  opt_meta : option json
}.

(** What [logBrightDataInteraction] returns: [{ ok: true }] or
    [{ ok: false, error }]. *)
Inductive LogResult :=
| LogOk
| LogFailed (error : string).

Definition logBrightDataInteraction (w : World) (opts : LogOpts)
  : R LogResult :=
  let+ t := nowR in
  let payload :=
    mkLogRow (opt_source opts) (opt_endpoint opts) (opt_method opts)
      (opt_request opts) (opt_response opts)
      (if truthy_env (opt_status opts) then default "" (opt_status opts)
       else "ok")
      (default (JObj []) (opt_meta opts))
      t in
  fun sv =>
    match insert w (bd_logs sv) payload with
    | Inserted => (Done LogOk, mkServer (process sv) (payload :: bd_logs sv))
    | InsertError error =>
        (do+ console_errorR ("Supabase logging failed: " +:+ error) in
         retR (LogFailed error)) sv
    | InsertRejected name message => (Failed name message, sv)
    end.

(** The block every caller wraps around its logging:
    [try { const supabase = getSupabaseClient();
           if (supabase) await logBrightDataInteraction(supabase, opts) }
     catch (e) { console.error(label, e.message || e) }]. *)
Definition best_effort_log (w : World) (label : string) (opts : R LogOpts)
  : R unit :=
  catchR
    (do+ getSupabaseClient w in
     let+ o := opts in
     do+ logBrightDataInteraction w o in
     retR tt)
    (fun name message =>
       console_errorR (label +:+ " " +:+ detail name message)).

(** ** The response of a route *)

Inductive Body :=
| JsonBody (j : json)           (* the text [JSON.stringify(j)] *)
| TextBody (t : string).

(** Status, the Content-Type header given to the constructor, body. *)
Record HttpResponse := mkHttp {
  http_status : Z;
  http_content_type : option string;
  http_body : Body
}.

(** [NextResponse.json(j, { status })] *)
Definition NextResponse_json (j : json) (st : Z) : HttpResponse :=
  mkHttp st (Some "application/json") (JsonBody j).

(** The statuses that admit no body. *)
Definition null_body_status (st : Z) : bool :=
  existsb (Z.eqb st) [101; 103; 204; 205; 304].

(** [new NextResponse(typeof data === "string" ? data :
    JSON.stringify(data), { status, headers })]: the Response constructor
    throws a RangeError for a status outside 200-599 and a TypeError for
    a body given with a status that admits none. *)
Definition new_NextResponse (w : World) (data : json) (st : Z)
    (content_type : option string) : R HttpResponse :=
  if (st <? 200) || (599 <? st) then
    raise "RangeError" (status_range_message w)
  else if null_body_status st then
    raise "TypeError" (null_body_message w)
  else
    retR (mkHttp st content_type
            match data with
            | JStr t => TextBody t
            | _ => JsonBody data
            end).

(** ** [String.prototype.replace] with a string pattern and the empty
    replacement *)

(** [s] without its prefix [p], if it starts with [p]. *)
Fixpoint strip_prefix (p s : string) : option string :=
  match p, s with
  | EmptyString, _ => Some s
  | String a p', String b s' =>
      if Ascii.eqb a b then strip_prefix p' s' else None
  | String _ _, EmptyString => None
  end.

(** [s.replace(pat, "")]: the first occurrence of [pat] is cut out. *)
Fixpoint remove_first (pat s : string) : string :=
  match strip_prefix pat s with
  | Some rest => rest
  | None =>
      match s with
      | EmptyString => EmptyString
      | String c r => String c (remove_first pat r)
      end
  end.

(** ** The deliver-snapshot route *)

Definition deliver_request (snapshot_id : json) (token : string)
    (delivery_params : json) : Request :=
  mkRequest POST (deliverSnapshotUrl (to_string snapshot_id))
    [("Authorization", "Bearer " +:+ token);
     ("Content-Type", "application/json");
     ("Accept", "application/json")]
    (Some delivery_params).

Definition simulated (snapshot_id : json) : json :=
  JObj [("ok", JBool true); ("snapshot_id", snapshot_id);
        ("delivered", JBool false);
        ("note", JStr "dry-run: no delivery performed")].

Definition duration_meta (start t : Z) : json :=
  JObj [("duration_ms", JNum (t - start))].

Section Callers.

Variable w : World.
Variable CACHE_TTL_MS : Z.
Variable net : Network.

(** The [try] block of [POST]; [req_json] is what [req.json()] resolves
    to, [None] when it rejects. *)
Definition POST_try (start : Z) (req_json : option json) : R HttpResponse :=
  let body := default (JObj []) req_json in
  match body with
  | JNull => raise "TypeError" (destructure_message w)
  | _ =>
  let snapshot_id := get body "snapshot_id" in
  let delivery_params := default (JObj []) (get body "delivery_params") in
  let dryRun := default (JBool false) (get body "dryRun") in
  match snapshot_id with
  | None => retR (NextResponse_json
                    (JObj [("error", JStr "snapshot_id is required")]) 400)
  | Some snapshot_id =>
  if negb (truthy snapshot_id) then
    retR (NextResponse_json
            (JObj [("error", JStr "snapshot_id is required")]) 400)
  else
  (* Retrieve token via Vault helper (with env fallback) *)
  let+ token :=
    lift (getSecret CACHE_TTL_MS net "secret/data/dealstream/brightdata"
            "BRIGHTDATA_API_TOKEN") in
  if negb (truthy_env token) then
    retR (NextResponse_json
            (JObj [("error",
                    JStr "Missing BRIGHTDATA_API_TOKEN (Vault/env fallback)")])
            500)
  else
  let token := default "" token in
  if truthy dryRun then
    do+ best_effort_log w
          "Supabase logging (deliver-snapshot dry-run) failed:"
          (let+ t := nowR in
           retR (mkLogOpts "marketplace_dataset"
                   "/marketplace/datasets/snapshots/:snapshot_id/deliver (dry-run)"
                   "POST"
                   (JObj [("snapshot_id", snapshot_id);
                          ("delivery_params", delivery_params);
                          ("dryRun", dryRun)])
                   (JObj [("status", JNum 200);
                          ("body", simulated snapshot_id)])
                   (Some "dry-run")
                   (Some (duration_meta start t)))) in
    retR (NextResponse_json (simulated snapshot_id) 200)
  else
  (* Perform real delivery *)
  let+ res :=
    lift (fetch net (deliver_request snapshot_id token delivery_params)) in
  let+ text := res_text w res in
  let data := parse_or_text res text in
  do+ best_effort_log w "Supabase logging (deliver-snapshot) failed:"
        (let+ t := nowR in
         retR (mkLogOpts "marketplace_dataset"
                 "/marketplace/datasets/snapshots/:snapshot_id/deliver"
                 "POST"
                 (JObj [("snapshot_id", snapshot_id);
                        ("delivery_params", delivery_params)])
                 (JObj [("status", JNum (status res)); ("body", data)])
                 (Some (ok_or_error (status res)))
                 (Some (duration_meta start t)))) in
  let contentType := content_type_of w res in
  new_NextResponse w data (status res)
    (if truthy_env contentType then contentType else None)
  end
  end.

(** [export async function POST(req)] of the deliver-snapshot route. *)
Definition POST_deliver_snapshot (req_json : option json)
  : Server -> HttpResponse * Server :=
  fun sv =>
    let start := now (process sv) in
    match POST_try start req_json sv with
    | (Done response, sv') => (response, sv')
    | (Failed name message, sv') =>
        match
          (do+ catchR
                 (do+ getSupabaseClient w in
                  let+ t := nowR in
                  do+ logBrightDataInteraction w
                        (mkLogOpts "marketplace_dataset"
                           "/marketplace/datasets/snapshots/:snapshot_id/deliver"
                           "POST" (JObj [])
                           (JObj [("error", JStr (detail name message))])
                           (Some "error")
                           (Some (duration_meta start t))) in
                  retR tt)
                 (fun _ _ => retR tt) in
           console_errorR
             ("Marketplace deliver-snapshot proxy error: "
                +:+ detail name message)) sv'
        with
        | (_, sv'') =>
            (NextResponse_json
               (JObj [("error", JStr "Internal proxy error");
                      ("detail", JStr (detail name message))])
               500,
             sv'')
        end
    end.

(** ** [fetchBrightData] *)

(** [JSON.stringify] of a request method. *)
Definition method_name (m : Method) : string :=
  match m with
  | GET => "GET"
  | POST => "POST"
  end.

(** [opts?: { source?: string; endpoint?: string; dryRun?: boolean }] *)
Record FetchOpts := mkFetchOpts {
  fo_source : option string;
  fo_endpoint : option string;
  fo_dryRun : option bool
}.

(** [{ status: res.status, headers: res.headers, body: data }]; the
    headers are those of [reply_from]. *)
Record BrightDataReply := mkBrightDataReply {
  reply_status : Z;
  reply_from : Response;
  reply_body : json
}.

(** [ensureToken] on the server; its own error is a plain [Error]. *)
Definition ensureTokenR : R string :=
  fun sv =>
    match ensureToken CACHE_TTL_MS net (process sv) with
    | (Token t, s') => (Done t, with_process s' sv)
    | (MissingToken, s') =>
        (Failed "Error"
           "Missing BRIGHTDATA_API_TOKEN (Vault and env fallback failed)",
         with_process s' sv)
    | (VaultError e, s') =>
        (Failed (error_name e) (message e), with_process s' sv)
    end.

Definition brightdata_request (method : Method) (url token : string)
    (body : option json) : Request :=
  mkRequest method url
    ([("Authorization", "Bearer " +:+ token);
      ("Accept", "application/json")]
       ++ match body with
          | Some _ => [("Content-Type", "application/json")]
          | None => []
          end)
    body.

(** [method] is one of the two methods the model of [fetch] has. *)
Definition fetchBrightData (method : Method) (url : string)
    (body : option json) (opts : option FetchOpts) : R BrightDataReply :=
  let+ start := nowR in
  let+ token := ensureTokenR in
  let+ res := lift (fetch net (brightdata_request method url token body)) in
  let+ text := res_text w res in
  let data := parse_or_text res text in
  (* Best-effort Supabase logging *)
  do+ best_effort_log w "Supabase logging (brightdata fetch) failed:"
        (let+ t := nowR in
         retR (mkLogOpts
                 (if truthy_env (opts ≫= fo_source)
                  then default "" (opts ≫= fo_source)
                  else "marketplace_dataset")
                 (if truthy_env (opts ≫= fo_endpoint)
                  then default "" (opts ≫= fo_endpoint)
                  else remove_first BASE url)
                 (method_name method)
                 match body with
                 | None | Some JNull => JObj []
                 | Some b => b
                 end
                 (JObj [("status", JNum (status res)); ("body", data)])
                 (Some (ok_or_error (status res)))
                 (Some (JObj [("duration_ms", JNum (t - start));
                              ("dryRun",
                               JBool (default false (opts ≫= fo_dryRun)))])))) in
  retR (mkBrightDataReply (status res) res data).

End Callers.

(** ** Vocabulary of the statements about the callers *)

(** From [sv] to [sv'] nothing happened to the process but console
    lines. *)
Definition quiet (sv sv' : Server) : Prop :=
  env (process sv') = env (process sv) /\
  cache (process sv') = cache (process sv) /\
  now (process sv') = now (process sv) /\
  requests (process sv') = requests (process sv).

(** From [sv] to [sv'] at most one row went into [bd_logs], and it
    satisfies [P]. *)
Definition logged_at_most (P : LogRow -> Prop) (sv sv' : Server) : Prop :=
  bd_logs sv' = bd_logs sv \/
  exists row, bd_logs sv' = row :: bd_logs sv /\ P row.

(** The row that [logBrightDataInteraction] builds from [opts] at
    instant [t]. *)
Definition log_row (o : LogOpts) (t : Z) : LogRow :=
  mkLogRow (opt_source o) (opt_endpoint o) (opt_method o)
    (opt_request o) (opt_response o)
    (if truthy_env (opt_status o) then default "" (opt_status o) else "ok")
    (default (JObj []) (opt_meta o))
    t.

(** A computation of the server that leaves the process alone but for
    console lines. *)
Definition silent {A} (m : R A) : Prop :=
  forall sv, quiet sv (m sv).2.

(** Why a response of Bright Data cannot be handed on, if so: the
    [fetch] rejected, [res.text()] rejected, or the Response constructor
    refuses the status. *)
Definition forward_failure (w : World) (r : FetchResult)
  : option (string * string) :=
  match r with
  | Rejected msg => Some ("TypeError", msg)
  | Resolved res =>
      match text_body res with
      | None => Some (text_rejection w)
      | Some _ =>
          if (status res <? 200) || (599 <? status res) then
            Some ("RangeError", status_range_message w)
          else if null_body_status (status res) then
            Some ("TypeError", null_body_message w)
          else None
      end
  end.

(** The response that hands on [res], whose text is [text]. *)
Definition mirrored (w : World) (res : Response) (text : string)
  : HttpResponse :=
  mkHttp (status res)
    (if truthy_env (content_type_of w res) then content_type_of w res
     else None)
    match parse_or_text res text with
    | JStr t => TextBody t
    | d => JsonBody d
    end.

(** The response of the route's [catch]. *)
Definition internal_error (name message : string) : HttpResponse :=
  NextResponse_json
    (JObj [("error", JStr "Internal proxy error");
           ("detail", JStr (detail name message))])
    500.

(** The response of the route once Bright Data was called with outcome
    [r]. *)
Definition forwarded (w : World) (r : FetchResult) : HttpResponse :=
  match forward_failure w r, r with
  | Some (name, message), _ => internal_error name message
  | None, Resolved res => mirrored w res (default "" (text_body res))
  | None, Rejected msg => internal_error "TypeError" msg
  end.

(** Two worlds that differ at most in Supabase: its configuration, its
    client and the outcome of inserts. *)
Definition same_but_supabase (w1 w2 : World) : Prop :=
  content_type_of w1 = content_type_of w2 /\
  text_rejection w1 = text_rejection w2 /\
  destructure_message w1 = destructure_message w2 /\
  status_range_message w1 = status_range_message w2 /\
  null_body_message w1 = null_body_message w2.

(** ** Further sample processes *)

(** A store address and nothing to authenticate with. *)
Definition addr_only_vars : list (string * string) :=
  [("VAULT_ADDR", "http://vault:8200"); ("K", "from-env")].

(** Static token, and the Bright Data token in the environment. *)
Definition brightdata_vars : list (string * string) :=
  [("VAULT_ADDR", "http://vault:8200"); ("VAULT_TOKEN", "t");
   ("BRIGHTDATA_API_TOKEN", "bd-from-env")].

(** ** Sample worlds and servers *)

(** Supabase configured, every insert goes in. *)
Definition logging_world : World :=
  mkWorld (Some "https://project.supabase.co") (Some "service-role") None
    (fun _ _ => Inserted)
    (fun _ => Some "text/plain")
    ("TypeError", "Body is unusable")
    "Cannot destructure property of null"
    "init.status must be in the range of 200 to 599, inclusive"
    "Invalid response status code".

(** Supabase not configured; a client could not be built, and an insert
    would reject. *)
Definition unlogged_world : World :=
  mkWorld None None (Some ("Error", "supabaseUrl is required"))
    (fun _ _ => InsertRejected "Error" "socket hang up")
    (fun _ => Some "text/plain")
    ("TypeError", "Body is unusable")
    "Cannot destructure property of null"
    "init.status must be in the range of 200 to 599, inclusive"
    "Invalid response status code".

(** Servers just started, without store address, with and without the
    Bright Data token in the environment. *)
Definition token_server : Server :=
  mkServer (boot [("BRIGHTDATA_API_TOKEN", "bd-token")]) [].

Definition tokenless_server : Server :=
  mkServer (boot storeless_vars) [].

(** Bright Data answers every request 202 with the text [queued], after
    35 ms. *)
Definition accepting : Network :=
  fun _ _ _ => mkReply (Resolved (mkResponse 202 None (Some "queued"))) 35.

(** A body of the deliver-snapshot route. *)
Definition deliver_body (dry : bool) : json :=
  JObj [("snapshot_id", JStr "s_1");
        ("delivery_params", JObj [("type", JStr "s3")]);
        ("dryRun", JBool dry)].

(** * Properties *)

Section Properties.

Variable CACHE_TTL_MS : Z.
Variable net : Network.

(** ** Computations that neither read nor write the cache *)

Lemma blind_ret {A} (a : A) : cache_blind (ret a).
Proof. intros c s. reflexivity. Qed.

Lemma blind_throw {A} (e : Error) : cache_blind (@throw A e).
Proof. intros c s. reflexivity. Qed.

Lemma blind_getenv name : cache_blind (getenv name).
Proof. intros c s. reflexivity. Qed.

Lemma blind_fetch req : cache_blind (fetch net req).
Proof.
  intros c s. unfold fetch, with_cache. cbn [now requests env console cache].
  destruct (result _); reflexivity.
Qed.

Lemma blind_bind {A B} (m : M A) (f : A -> M B) :
  cache_blind m -> (forall a, cache_blind (f a)) -> cache_blind (bind m f).
Proof.
  intros Hm Hf c s. unfold bind. rewrite Hm.
  destruct (m s) as [[a | e] s1]; cbn [fst snd]; [apply Hf | reflexivity].
Qed.

Ltac blind :=
  repeat first
    [ apply blind_ret | apply blind_throw | apply blind_getenv
    | apply blind_fetch | apply blind_bind; [ | intros ? ]
    | match goal with
      | |- cache_blind (if ?b then _ else _) => destruct b
      | |- cache_blind (match ?x with Some _ => _ | None => _ end) =>
          destruct x
      end ].

Lemma fetchFromVault_blind path : cache_blind (fetchFromVault net path).
Proof. unfold fetchFromVault. cbv zeta. blind. Qed.

(** ** What a computation leaves alone *)

Lemma sent_refl s : sent [] s s.
Proof. unfold sent. repeat split; lia. Qed.

Lemma sent_trans new1 new2 s1 s2 s3 :
  sent new1 s1 s2 -> sent new2 s2 s3 -> sent (new2 ++ new1) s1 s3.
Proof.
  unfold sent. intros (E1 & C1 & T1 & R1) (E2 & C2 & T2 & R2).
  repeat split; try congruence; try lia.
  rewrite R2, R1. apply app_assoc.
Qed.

Lemma framed_ret {A} (a : A) : framed (ret a).
Proof. intros s. split; [reflexivity | exists []; apply sent_refl]. Qed.

Lemma framed_throw {A} (e : Error) : framed (@throw A e).
Proof. intros s. split; [reflexivity | exists []; apply sent_refl]. Qed.

Lemma framed_getenv name : framed (getenv name).
Proof. intros s. split; [reflexivity | exists []; apply sent_refl]. Qed.

Lemma framed_fetch req : framed (fetch net req).
Proof.
  intros s. unfold fetch.
  destruct (result _); cbn [fst snd cache]; (split; [reflexivity | ]);
    exists [req]; unfold sent; cbn [env console now requests];
    repeat split; lia.
Qed.

Lemma framed_bind {A B} (m : M A) (f : A -> M B) :
  framed m -> (forall a, framed (f a)) -> framed (bind m f).
Proof.
  intros Hm Hf s. unfold bind.
  destruct (Hm s) as (Hc & new1 & H1).
  destruct (m s) as [[a | e] s1]; cbn [fst snd] in *.
  - destruct (Hf a s1) as (Hc' & new2 & H2).
    split; [congruence | ]. exists (new2 ++ new1). eapply sent_trans; eauto.
  - split; [assumption | eauto].
Qed.

Ltac framed :=
  repeat first
    [ apply framed_ret | apply framed_throw | apply framed_getenv
    | apply framed_fetch | apply framed_bind; [ | intros ? ]
    | match goal with
      | |- framed (if ?b then _ else _) => destruct b
      | |- framed (match ?x with Some _ => _ | None => _ end) => destruct x
      end ].

Lemma fetchFromVault_framed path : framed (fetchFromVault net path).
Proof. unfold fetchFromVault. cbv zeta. framed. Qed.

(** ** The paths through [fetchFromVault] *)

Lemma truthy_env_Some (v : string) : v <> "" -> truthy_env (Some v) = true.
Proof.
  intros H. unfold truthy_env. destruct (String.eqb_spec v ""); [congruence | reflexivity].
Qed.

Lemma truthy_JStr (v : string) : v <> "" -> truthy (JStr v) = true.
Proof. apply truthy_env_Some. Qed.

Ltac step_M :=
  unfold bind, getenv, ret, throw, Date_now, cache_get, cache_set,
    console_error, try_catch;
  cbv beta iota zeta.

Ltac env_step :=
  first
    [ match goal with
      | H : env _ !! _ = _ |- _ => rewrite H
      | H : cache _ !! _ = _ |- _ => rewrite H
      | H : truthy_env _ = _ |- _ => rewrite H
      | H : net _ _ _ = _ |- _ => rewrite H
      | H : ok _ = _ |- _ => rewrite H
      end
    | rewrite truthy_env_Some by assumption
    | rewrite truthy_JStr by assumption
    | progress cbn [negb andb orb default from_option id fmap option_fmap
                    option_map result latency]
    | progress cbv beta iota zeta ].

Lemma fetchFromVault_no_addr path s :
  truthy_env (env s !! "VAULT_ADDR") = false ->
  fetchFromVault net path s = (Throws AddrNotConfigured, s).
Proof.
  intros H. unfold fetchFromVault. step_M. rewrite H. reflexivity.
Qed.

Lemma fetchFromVault_static_token path s addr tok :
  env s !! "VAULT_ADDR" = Some addr -> addr <> "" ->
  env s !! "VAULT_TOKEN" = Some tok -> tok <> "" ->
  fetchFromVault net path s =
  (let* res := fetch net (read_request addr path (JStr tok)) in
   if negb (ok res) then
     throw (SecretFetchFailed (status res) (default "" (text_body res)))
   else ret (unwrap (default (JObj []) (json_body res)))) s.
Proof.
  intros Ha Hna Ht Hnt. unfold fetchFromVault. step_M.
  repeat env_step. reflexivity.
Qed.

Lemma fetchFromVault_login_rejected path s addr role secret resp lat :
  env s !! "VAULT_ADDR" = Some addr -> addr <> "" ->
  truthy_env (env s !! "VAULT_TOKEN") = false ->
  env s !! "VAULT_ROLE_ID" = Some role -> role <> "" ->
  env s !! "VAULT_SECRET_ID" = Some secret -> secret <> "" ->
  net (now s) (requests s) (login_request addr role secret)
  = mkReply (Resolved resp) lat ->
  ok resp = false ->
  fetchFromVault net path s =
  (Throws (AppRoleLoginFailed (status resp)),
   mkState (env s) (cache s) (now s + Z.of_N lat)
     (login_request addr role secret :: requests s) (console s)).
Proof.
  intros Ha Hna Ht Hr Hnr Hs Hns Hnet Hok. unfold fetchFromVault. step_M.
  repeat env_step. unfold fetch. repeat env_step. reflexivity.
Qed.

Lemma fetchFromVault_approle path s addr role secret :
  env s !! "VAULT_ADDR" = Some addr -> addr <> "" ->
  truthy_env (env s !! "VAULT_TOKEN") = false ->
  env s !! "VAULT_ROLE_ID" = Some role -> role <> "" ->
  env s !! "VAULT_SECRET_ID" = Some secret -> secret <> "" ->
  fetchFromVault net path s =
  (let* token :=
     (let* resp := fetch net (login_request addr role secret) in
      if negb (ok resp) then throw (AppRoleLoginFailed (status resp)) else
      let token :=
        get_opt (get_opt (Some (default (JObj []) (json_body resp))) "auth")
          "client_token" in
      if negb (truthy_value token) then throw AppRoleNoClientToken else
      ret token) in
   match token with
   | Some tok =>
       if negb (truthy tok) then throw NoVaultAuth else
       let* res := fetch net (read_request addr path tok) in
       if negb (ok res) then
         throw (SecretFetchFailed (status res) (default "" (text_body res)))
       else ret (unwrap (default (JObj []) (json_body res)))
   | None => throw NoVaultAuth
   end) s.
Proof.
  intros Ha Hna Ht Hr Hnr Hs Hns. unfold fetchFromVault. step_M.
  repeat env_step. reflexivity.
Qed.

Lemma truthy_env_inv (o : option string) :
  truthy_env o = true -> exists v, o = Some v /\ v <> "".
Proof.
  destruct o as [v | ]; [ | discriminate ]. intros H. exists v.
  split; [reflexivity | ]. intros ->. discriminate.
Qed.

Lemma fetchFromVault_not_ready path s :
  store_ready s = false ->
  exists e, fetchFromVault net path s = (Throws e, s).
Proof.
  unfold store_ready. intros H.
  destruct (truthy_env (env s !! "VAULT_ADDR")) eqn:Ha;
    [ | eexists; apply fetchFromVault_no_addr; assumption ].
  cbn [andb] in H. apply orb_false_iff in H as [Ht Hc].
  unfold fetchFromVault. step_M. rewrite Ha. cbn [negb]. cbv beta iota.
  rewrite Ht. cbn [negb andb]. rewrite Hc.
  destruct (env s !! "VAULT_TOKEN") as [tok | ];
    cbn [fmap option_fmap option_map]; [ | eexists; reflexivity ].
  cbn [truthy_env] in Ht. cbn [truthy]. rewrite Ht. eexists; reflexivity.
Qed.

Lemma fetch_sends req s : requests (fetch net req s).2 = req :: requests s.
Proof. unfold fetch. destruct (result _); reflexivity. Qed.

Lemma bind_keeps_requests {A B} (m : M A) (f : A -> M B) s (n : nat) :
  (forall a, framed (f a)) ->
  (n < length (requests (m s).2))%nat ->
  (n < length (requests (bind m f s).2))%nat.
Proof.
  intros Hf Hn. unfold bind.
  destruct (m s) as [[a | e] s1]; cbn [snd] in *; [ | assumption ].
  destruct (Hf a s1) as (_ & new & _ & _ & _ & ->).
  rewrite length_app. lia.
Qed.

Lemma fetchFromVault_sends path s :
  store_ready s = true ->
  (length (requests s) < length (requests (fetchFromVault net path s).2))%nat.
Proof.
  unfold store_ready. intros H.
  apply andb_true_iff in H as [Ha Hc].
  apply truthy_env_inv in Ha as (addr & Ha & Hna).
  destruct (truthy_env (env s !! "VAULT_TOKEN")) eqn:Ht.
  - apply truthy_env_inv in Ht as (tok & Ht & Hnt).
    rewrite (fetchFromVault_static_token path s addr tok) by assumption.
    apply bind_keeps_requests; [ intros res; framed | ].
    rewrite fetch_sends. simpl. lia.
  - cbn [orb] in Hc. apply andb_true_iff in Hc as [Hr Hs].
    apply truthy_env_inv in Hr as (role & Hr & Hnr).
    apply truthy_env_inv in Hs as (secret & Hs & Hns).
    rewrite (fetchFromVault_approle path s addr role secret) by assumption.
    apply bind_keeps_requests; [ intros tok; cbv zeta; framed | ].
    apply bind_keeps_requests; [ intros res; cbv zeta; framed | ].
    rewrite fetch_sends. simpl. lia.
Qed.

Lemma fetchFromVault_returns_after_request path s data s1 :
  fetchFromVault net path s = (Returns data, s1) ->
  (length (requests s) < length (requests s1))%nat.
Proof.
  intros H. destruct (store_ready s) eqn:Hr.
  - apply (fetchFromVault_sends path) in Hr. rewrite H in Hr. exact Hr.
  - apply (fetchFromVault_not_ready path) in Hr as [e He]. congruence.
Qed.

(** ** The paths through [getSecret] *)

Lemma live_Some t c : t < expiresAt c -> live t (Some c) = Some c.
Proof.
  intros H. unfold live. destruct (Z.gtb_spec (expiresAt c) t); [done | lia].
Qed.

Lemma live_expired t c : expiresAt c <= t -> live t (Some c) = None.
Proof.
  intros H. unfold live. destruct (Z.gtb_spec (expiresAt c) t); [lia | done].
Qed.

Lemma live_inv t o c : live t o = Some c -> o = Some c /\ t < expiresAt c.
Proof.
  destruct o as [c' | ]; [ | discriminate ]. unfold live.
  destruct (Z.gtb_spec (expiresAt c') t); [ | discriminate ].
  intros [= ->]. split; [reflexivity | lia].
Qed.

Lemma getSecret_hit p k s c :
  cache s !! cacheKey p k = Some c -> now s < expiresAt c ->
  getSecret CACHE_TTL_MS net p k s = (Returns (value c), s).
Proof.
  intros Hc Ht. unfold getSecret. step_M.
  rewrite Hc, live_Some by assumption. reflexivity.
Qed.

Lemma getSecret_found p k s data s1 :
  live (now s) (cache s !! cacheKey p k) = None ->
  fetchFromVault net p s = (Returns data, s1) ->
  getSecret CACHE_TTL_MS net p k s =
  (Returns
     match field data k with
     | Some v => Some v
     | None => if truthy_env (env s1 !! k) then env s1 !! k else None
     end,
   with_cache
     (<[cacheKey p k := mkCached (field data k) (now s1 + CACHE_TTL_MS)]>
        (cache s1)) s1).
Proof.
  intros Hl Hf. unfold getSecret. step_M. rewrite Hl, Hf.
  fold (field data k). destruct (field data k) as [v | ]; [reflexivity | ].
  cbv beta iota. unfold with_cache. cbn [env].
  destruct (truthy_env (env s1 !! k)); reflexivity.
Qed.

Lemma getSecret_failed p k s e s1 :
  live (now s) (cache s !! cacheKey p k) = None ->
  fetchFromVault net p s = (Throws e, s1) ->
  getSecret CACHE_TTL_MS net p k s =
  (Returns (env s1 !! k),
   mkState (env s1)
     (<[cacheKey p k :=
          mkCached (env s1 !! k) (now s1 + Z.min CACHE_TTL_MS (30 * 1000))]>
        (cache s1))
     (now s1) (requests s1)
     (("Vault fetch failed, falling back to env: " +:+ message e)
        :: console s1)).
Proof.
  intros Hl Hf. unfold getSecret. step_M. rewrite Hl, Hf. reflexivity.
Qed.

(** [getSecret] always returns: every error of [fetchFromVault] is caught. *)
Lemma getSecret_returns p k s :
  exists v s', getSecret CACHE_TTL_MS net p k s = (Returns v, s').
Proof.
  destruct (live (now s) (cache s !! cacheKey p k)) as [c | ] eqn:Hl.
  - apply live_inv in Hl as [Hc Ht]. eauto using getSecret_hit.
  - destruct (fetchFromVault net p s) as [[data | e] s1] eqn:Hf.
    + erewrite getSecret_found by eassumption. eauto.
    + erewrite getSecret_failed by eassumption. eauto.
Qed.

(** A miss goes through [fetchFromVault] and overwrites the entry. *)
Lemma getSecret_miss p k s :
  live (now s) (cache s !! cacheKey p k) = None ->
  exists v s' c',
    getSecret CACHE_TTL_MS net p k s = (Returns v, s') /\
    resolved_afresh s s' /\
    env s' = env s /\ now s <= now s' /\
    requests s' = requests (fetchFromVault net p s).2 /\
    cache s' = <[cacheKey p k := c']> (cache s).
Proof.
  intros Hl.
  pose proof (fetchFromVault_framed p s) as (Hc & new & He & Hco & Ht & Hr).
  pose proof (fetchFromVault_sends p s) as Hs.
  destruct (fetchFromVault net p s) as [[data | e] s1] eqn:Hf;
    cbn [fst snd] in *.
  - apply fetchFromVault_returns_after_request in Hf as Hn.
    erewrite getSecret_found by eassumption.
    eexists _, _, _. split; [reflexivity | ].
    unfold resolved_afresh, with_cache; cbn [env now requests console cache].
    rewrite Hc, Hco. repeat split; auto; lia.
  - erewrite getSecret_failed by eassumption.
    eexists _, _, _. split; [reflexivity | ].
    unfold resolved_afresh; cbn [env now requests console cache length].
    rewrite Hc, Hco. repeat split; auto; try lia.
    rewrite Hr, length_app. lia.
Qed.

(** An entry that is not live counts for nothing. *)
Lemma getSecret_stale_as_absent p k s :
  live (now s) (cache s !! cacheKey p k) = None ->
  getSecret CACHE_TTL_MS net p k s =
  getSecret CACHE_TTL_MS net p k
    (with_cache (delete (cacheKey p k) (cache s)) s).
Proof.
  intros Hl. set (c0 := delete (cacheKey p k) (cache s)).
  assert (Hl0 : live (now (with_cache c0 s))
                  (cache (with_cache c0 s) !! cacheKey p k) = None).
  { unfold with_cache, c0; cbn [now cache]. by rewrite lookup_delete_eq. }
  pose proof (fetchFromVault_blind p c0 s) as Hb.
  pose proof (fetchFromVault_framed p s) as (Hc & _).
  destruct (fetchFromVault net p s) as [[data | e] s1] eqn:Hf;
    cbn [fst snd] in *.
  - rewrite (getSecret_found p k s data s1) by assumption.
    rewrite (getSecret_found p k _ data (with_cache c0 s1)) by assumption.
    unfold with_cache, c0; cbn [env now requests console cache].
    by rewrite Hc, insert_delete_eq.
  - rewrite (getSecret_failed p k s e s1) by assumption.
    rewrite (getSecret_failed p k _ e (with_cache c0 s1)) by assumption.
    unfold with_cache, c0; cbn [env now requests console cache].
    by rewrite Hc, insert_delete_eq.
Qed.

(** ** Reading a secret with the static token *)

Lemma fetchFromVault_static_requests path s addr tok :
  env s !! "VAULT_ADDR" = Some addr -> addr <> "" ->
  env s !! "VAULT_TOKEN" = Some tok -> tok <> "" ->
  requests (fetchFromVault net path s).2
  = read_request addr path (JStr tok) :: requests s.
Proof.
  intros Ha Hna Ht Hnt.
  rewrite (fetchFromVault_static_token path s addr tok) by assumption.
  unfold bind, fetch.
  destruct (result _) as [msg | res]; [reflexivity | ].
  destruct (negb (ok res)); reflexivity.
Qed.


(** ** The envelopes and the cache key *)




Lemma string_app_assoc (a b c : string) : (a +:+ b) +:+ c = a +:+ (b +:+ c).
Proof.
  induction a as [ | x a IH]; [reflexivity | ].
  change (String x ((a +:+ b) +:+ c) = String x (a +:+ (b +:+ c))).
  by rewrite IH.
Qed.

(** On a miss the value returned is the value cached, except when the
    collection was fetched, lacks the key, and the environment has a
    non-empty value for it: then the environment value is returned and
    [null] is cached. *)
Lemma getSecret_result_cached path keyName s :
  live (now s) (cache s !! cacheKey path keyName) = None ->
  exists v s' c',
    getSecret CACHE_TTL_MS net path keyName s = (Returns v, s') /\
    cache s' !! cacheKey path keyName = Some c' /\
    (value c' = v \/
     (value c' = None /\ v = env s !! keyName /\
      truthy_env (env s !! keyName) = true /\
      exists data s1,
        fetchFromVault net path s = (Returns data, s1) /\
        field data keyName = None)).
Proof.
  intros Hl.
  pose proof (fetchFromVault_framed path s) as (_ & _ & He & _).
  destruct (fetchFromVault net path s) as [[data | e] s1] eqn:Hf;
    cbn [snd] in He.
  - rewrite (getSecret_found path keyName s data s1) by assumption.
    eexists _, _, _. split; [reflexivity | ].
    unfold with_cache; cbn [cache]. rewrite lookup_insert_eq.
    split; [reflexivity | ]. cbn [value]. rewrite He.
    destruct (field data keyName) as [v | ] eqn:Hv; [by left | ].
    destruct (truthy_env (env s !! keyName)) eqn:Ht; [ | by left ].
    right. eauto 10.
  - rewrite (getSecret_failed path keyName s e s1) by assumption.
    eexists _, _, _. split; [reflexivity | ].
    cbn [cache]. rewrite lookup_insert_eq. split; [reflexivity | by left].
Qed.

(** ** Properties of the helper *)

Abbreviation resolve := (getSecret CACHE_TTL_MS net).

(** C1 (as amended). With a store address, no static token and a
    role-id/secret-id pair configured, a login answered with a non-success
    status does not make [getSecret] throw: the error is caught, reported
    on the console, and the environment value of the key is returned and
    cached for [min(CACHE_TTL_MS, 30000)] ms. Only the login request went
    out. *)
Theorem login_rejection_falls_back path keyName s addr role secret resp lat :
  live (now s) (cache s !! cacheKey path keyName) = None ->
  env s !! "VAULT_ADDR" = Some addr -> addr <> "" ->
  truthy_env (env s !! "VAULT_TOKEN") = false ->
  env s !! "VAULT_ROLE_ID" = Some role -> role <> "" ->
  env s !! "VAULT_SECRET_ID" = Some secret -> secret <> "" ->
  net (now s) (requests s) (login_request addr role secret)
  = mkReply (Resolved resp) lat ->
  ok resp = false ->
  resolve path keyName s =
  (Returns (env s !! keyName),
   mkState (env s)
     (<[cacheKey path keyName :=
          mkCached (env s !! keyName)
            (now s + Z.of_N lat + Z.min CACHE_TTL_MS (30 * 1000))]>
        (cache s))
     (now s + Z.of_N lat)
     (login_request addr role secret :: requests s)
     (("Vault fetch failed, falling back to env: "
         +:+ message (AppRoleLoginFailed (status resp)))
        :: console s)).
Proof.
  intros Hl Ha Hna Ht Hr Hnr Hs Hns Hnet Hok.
  erewrite getSecret_failed;
    [ | assumption | apply fetchFromVault_login_rejected; eassumption ].
  reflexivity.
Qed.


(** C4. An entry is served exactly while [expiresAt] is strictly in the
    future: then its value is returned and nothing else happens. From
    [expiresAt] on the call behaves as if the entry were not there and
    resolves afresh; a call that leaves the process untouched found a live
    entry. *)
Theorem expired_entry_never_served path keyName s c :
  cache s !! cacheKey path keyName = Some c ->
  (now s < expiresAt c -> resolve path keyName s = (Returns (value c), s)) /\
  (expiresAt c <= now s ->
   resolve path keyName s
   = resolve path keyName
       (with_cache (delete (cacheKey path keyName) (cache s)) s) /\
   exists v s',
     resolve path keyName s = (Returns v, s') /\ resolved_afresh s s') /\
  (forall v, resolve path keyName s = (Returns v, s) -> now s < expiresAt c).
Proof.
  intros Hc.
  assert (Hstale : expiresAt c <= now s ->
                   live (now s) (cache s !! cacheKey path keyName) = None).
  { intros Ht. rewrite Hc. by apply live_expired. }
  split; [ | split ].
  - intros Ht. by apply getSecret_hit.
  - intros Ht. split; [ by apply getSecret_stale_as_absent, Hstale | ].
    destruct (getSecret_miss path keyName s (Hstale Ht))
      as (v & s' & c' & Hg & Hr & _).
    eauto.
  - intros v Hg. destruct (Z.lt_ge_cases (now s) (expiresAt c)) as [ | Ht];
      [assumption | exfalso].
    destruct (getSecret_miss path keyName s (Hstale Ht))
      as (v' & s' & c' & Hg' & [Hr _] & _).
    rewrite Hg in Hg'. injection Hg' as _ <-. lia.
Qed.


(** C6. Without a store address and without a cache entry, the call sends
    nothing and returns the environment value of the key. *)
Theorem no_store_address_env_fallback path K V s :
  cache s !! cacheKey path K = None ->
  truthy_env (env s !! "VAULT_ADDR") = false ->
  env s !! K = Some V ->
  exists s',
    resolve path K s = (Returns (Some V), s') /\ requests s' = requests s.
Proof.
  intros Hc Ha Hv.
  assert (Hl : live (now s) (cache s !! cacheKey path K) = None)
    by (rewrite Hc; reflexivity).
  rewrite (getSecret_failed path K s _ _ Hl (fetchFromVault_no_addr path s Ha)).
  rewrite Hv. eexists. split; reflexivity.
Qed.

(** C7. With a static token and a role-id/secret-id pair both configured,
    every request sent by a call is a GET carrying the static token as
    bearer (so no login is posted); on a miss with a store address the
    call sends exactly the secret read with that token. *)
Theorem static_token_preferred path keyName s tok role secret :
  env s !! "VAULT_TOKEN" = Some tok -> tok <> "" ->
  env s !! "VAULT_ROLE_ID" = Some role -> role <> "" ->
  env s !! "VAULT_SECRET_ID" = Some secret -> secret <> "" ->
  exists v s',
    resolve path keyName s = (Returns v, s') /\
    (exists new,
       requests s' = new ++ requests s /\
       Forall (fun q => method q = GET /\
                        In ("Authorization", "Bearer " +:+ tok) (headers q))
         new) /\
    (forall addr,
       live (now s) (cache s !! cacheKey path keyName) = None ->
       env s !! "VAULT_ADDR" = Some addr -> addr <> "" ->
       requests s' = read_request addr path (JStr tok) :: requests s).
Proof.
  intros Ht Hnt _ _ _ _.
  destruct (live (now s) (cache s !! cacheKey path keyName)) as [c | ] eqn:Hl.
  { apply live_inv in Hl as [Hc Hlt].
    exists (value c), s. split; [by apply getSecret_hit | ].
    split; [ exists []; split; [reflexivity | constructor] | ].
    intros addr [=]. }
  destruct (getSecret_miss path keyName s Hl)
    as (v & s' & c' & Hg & _ & _ & _ & Hr & _).
  exists v, s'. split; [assumption | ].
  destruct (truthy_env (env s !! "VAULT_ADDR")) eqn:Ha.
  - apply truthy_env_inv in Ha as (addr & Ha & Hna).
    rewrite (fetchFromVault_static_requests path s addr tok) in Hr
      by assumption.
    split.
    + exists [read_request addr path (JStr tok)]. split; [assumption | ].
      repeat constructor.
    + intros addr' _ Ha' _. congruence.
  - rewrite (fetchFromVault_no_addr path s Ha) in Hr. cbn [snd] in Hr.
    split; [ exists []; split; [assumption | constructor] | ].
    intros addr _ Ha' Hna. rewrite Ha', truthy_env_Some in Ha by assumption.
    discriminate.
Qed.

(** C8. When [fetchFromVault] fails, the environment value of the key is
    returned and cached until [min(CACHE_TTL_MS, 30000)] ms after the
    failure. A later call that sees this entry before that time is served
    from it; from that time on the call behaves as if the entry were not
    there and goes to the store again. *)
Theorem fallback_cached_briefly path keyName s e s1 :
  live (now s) (cache s !! cacheKey path keyName) = None ->
  fetchFromVault net path s = (Throws e, s1) ->
  exists s',
    resolve path keyName s = (Returns (env s !! keyName), s') /\
    now s' = now s1 /\
    cache s' !! cacheKey path keyName
    = Some (mkCached (env s !! keyName)
              (now s' + Z.min CACHE_TTL_MS 30000)) /\
    forall s2,
      cache s2 !! cacheKey path keyName = cache s' !! cacheKey path keyName ->
      (now s2 < now s' + Z.min CACHE_TTL_MS 30000 ->
       resolve path keyName s2 = (Returns (env s !! keyName), s2)) /\
      (now s' + Z.min CACHE_TTL_MS 30000 <= now s2 ->
       resolve path keyName s2
       = resolve path keyName
           (with_cache (delete (cacheKey path keyName) (cache s2)) s2) /\
       exists v2 s3,
         resolve path keyName s2 = (Returns v2, s3) /\
         resolved_afresh s2 s3).
Proof.
  intros Hl Hf.
  pose proof (fetchFromVault_framed path s) as (_ & _ & He & _).
  rewrite Hf in He; cbn [snd] in He.
  eexists. split; [ | split; [ | split ] ].
  - rewrite (getSecret_failed path keyName s e s1) by assumption.
    rewrite He. reflexivity.
  - reflexivity.
  - cbn [cache now]. by rewrite lookup_insert_eq.
  - cbn [cache now]. rewrite lookup_insert_eq. intros s2 Hc. split.
    + intros Hlt.
      pose proof (getSecret_hit path keyName s2 _ Hc) as Hh.
      cbn [value expiresAt] in Hh. apply Hh. exact Hlt.
    + intros Hge.
      assert (Hl2 : live (now s2) (cache s2 !! cacheKey path keyName) = None)
        by (rewrite Hc; apply live_expired; assumption).
      split; [by apply getSecret_stale_as_absent | ].
      destruct (getSecret_miss path keyName s2 Hl2)
        as (v2 & s3 & c' & Hg & Hr & _).
      eauto.
Qed.


(** C10. [cacheKey] is not injective: moving a ["#"] between path and key
    name gives the same cache key; the pairs [("a#b", "c")] and
    [("a", "b#c")] differ and share one, so a live entry stored for the
    first is served to a call for the second. *)
Theorem cacheKey_not_injective :
  (forall a b c,
     cacheKey (a +:+ "#" +:+ b) c = cacheKey a (b +:+ "#" +:+ c)) /\
  ("a#b", "c") <> ("a", "b#c") /\
  cacheKey "a#b" "c" = cacheKey "a" "b#c" /\
  forall s entry,
    cache s !! cacheKey "a#b" "c" = Some entry ->
    now s < expiresAt entry ->
    resolve "a" "b#c" s = (Returns (value entry), s).
Proof.
  split; [ | split; [ | split ] ].
  - intros a b c. unfold cacheKey. by rewrite !string_app_assoc.
  - discriminate.
  - reflexivity.
  - intros s entry Hc Ht. by apply getSecret_hit.
Qed.

End Properties.

(** ** The properties on sample processes *)

(** C1, the claim as stated fails: store address set, no static token,
    role-id ["r"], secret-id ["s"], login answered with status 400; the
    call returns the environment value and throws nothing. *)
Lemma login_rejection_not_thrown :
  truthy_env (env (boot approle_vars) !! "VAULT_ADDR") = true /\
  truthy_env (env (boot approle_vars) !! "VAULT_TOKEN") = false /\
  env (boot approle_vars) !! "VAULT_ROLE_ID" = Some "r" /\
  env (boot approle_vars) !! "VAULT_SECRET_ID" = Some "s" /\
  refusing 400 1000 [] (login_request "http://vault:8200" "r" "s")
  = mkReply (Resolved (mkResponse 400 None (Some "denied"))) 7 /\
  ok (mkResponse 400 None (Some "denied")) = false /\
  (getSecret default_CACHE_TTL_MS (refusing 400) brightdata_path "K"
     (boot approle_vars)).1
  = Returns (Some "from-env") /\
  forall e,
    (getSecret default_CACHE_TTL_MS (refusing 400) brightdata_path "K"
       (boot approle_vars)).1
    <> Throws e.
Proof.
  repeat split; try (vm_compute; reflexivity).
  intros e. vm_compute. discriminate.
Qed.

(** The same run through the general statement: the value comes from the
    environment, one login request was sent, and the entry expires 30 s
    after the failure at 1007. *)
Lemma login_rejection_falls_back_witness :
  exists s',
    getSecret default_CACHE_TTL_MS (refusing 400) brightdata_path "K"
      (boot approle_vars)
    = (Returns (Some "from-env"), s') /\
    requests s' = [login_request "http://vault:8200" "r" "s"] /\
    cache s' !! cacheKey brightdata_path "K"
    = Some (mkCached (Some "from-env") 31007).
Proof.
  eexists. split.
  - rewrite (login_rejection_falls_back default_CACHE_TTL_MS (refusing 400)
               brightdata_path "K" (boot approle_vars)
               "http://vault:8200" "r" "s"
               (mkResponse 400 None (Some "denied")) 7);
      first [ discriminate | vm_compute; reflexivity ].
  - vm_compute. split; reflexivity.
Defined.

(** C2, the code breaks the claim. The store is up and the collection at
    the path has no field ["K"]; the environment has [K=from-env]. The
    first call returns ["from-env"] and sends one request, but the cache
    then holds [null] under the key until 1020 + 300000; a second call
    1 ms later sends nothing and returns [null], not ["from-env"]. *)
Theorem absent_key_result_not_cached :
  live 1000 (cache (boot token_vars) !! cacheKey brightdata_path "K") = None /\
  absent_key_call.1 = Returns (Some "from-env") /\
  length (requests absent_key_call.2) = 1%nat /\
  cache absent_key_call.2 !! cacheKey brightdata_path "K"
  = Some (mkCached None (1020 + default_CACHE_TTL_MS)) /\
  getSecret default_CACHE_TTL_MS (serving (kv2_body "OTHER" "x"))
    brightdata_path "K" (advance 1 absent_key_call.2)
  = (Returns None, advance 1 absent_key_call.2).
Proof. repeat split; vm_compute; reflexivity. Qed.


(** An entry expiring at 1001 is served at clock 1000; one expiring at
    1000 is not. *)
Lemma expired_entry_never_served_witness :
  getSecret default_CACHE_TTL_MS unreachable "p" "K"
    (cached_process (cacheKey "p" "K") 1001)
  = (Returns (Some "old"), cached_process (cacheKey "p" "K") 1001) /\
  exists v s',
    getSecret default_CACHE_TTL_MS unreachable "p" "K"
      (cached_process (cacheKey "p" "K") 1000)
    = (Returns v, s') /\
    resolved_afresh (cached_process (cacheKey "p" "K") 1000) s'.
Proof.
  split.
  - apply (expired_entry_never_served default_CACHE_TTL_MS unreachable
             "p" "K" (cached_process (cacheKey "p" "K") 1001)
             (mkCached (Some "old") 1001));
      vm_compute; reflexivity.
  - apply (expired_entry_never_served default_CACHE_TTL_MS unreachable
             "p" "K" (cached_process (cacheKey "p" "K") 1000)
             (mkCached (Some "old") 1000));
      [ vm_compute; reflexivity | vm_compute; discriminate ].
Defined.



(** VAULT_ADDR set to the empty string counts as no store address. *)
Lemma no_store_address_env_fallback_witness :
  exists s',
    getSecret default_CACHE_TTL_MS unreachable brightdata_path "K"
      (boot storeless_key_vars)
    = (Returns (Some "V"), s') /\
    requests s' = requests (boot storeless_key_vars).
Proof.
  apply (no_store_address_env_fallback default_CACHE_TTL_MS unreachable
           brightdata_path "K" "V" (boot storeless_key_vars));
    vm_compute; reflexivity.
Defined.

(** Token and role/secret pair both set: the only request is the read
    with the static token. *)
Lemma static_token_preferred_witness :
  exists v s',
    getSecret default_CACHE_TTL_MS (serving (kv2_body "K" "V"))
      brightdata_path "K" (boot token_vars)
    = (Returns v, s') /\
    requests s'
    = [read_request "http://vault:8200/" brightdata_path (JStr "t")].
Proof.
  destruct (static_token_preferred default_CACHE_TTL_MS
              (serving (kv2_body "K" "V")) brightdata_path "K"
              (boot token_vars) "t" "r" "s")
    as (v & s' & Hcall & _ & Hread);
    first [ discriminate | vm_compute; reflexivity | idtac ].
  exists v, s'. split; [exact Hcall | ].
  apply (Hread "http://vault:8200/");
    first [ discriminate | vm_compute; reflexivity ].
Defined.

(** The store cannot be reached: the fallback is served 29999 ms after
    the failure and resolved afresh 30000 ms after it. *)
Lemma fallback_cached_briefly_witness :
  exists s',
    getSecret default_CACHE_TTL_MS unreachable brightdata_path "K"
      (boot token_vars)
    = (Returns (Some "from-env"), s') /\
    cache s' !! cacheKey brightdata_path "K"
    = Some (mkCached (Some "from-env") (now s' + 30000)) /\
    getSecret default_CACHE_TTL_MS unreachable brightdata_path "K"
      (advance 29999 s')
    = (Returns (Some "from-env"), advance 29999 s') /\
    exists v2 s3,
      getSecret default_CACHE_TTL_MS unreachable brightdata_path "K"
        (advance 30000 s')
      = (Returns v2, s3) /\
      resolved_afresh (advance 30000 s') s3.
Proof.
  destruct (fallback_cached_briefly default_CACHE_TTL_MS unreachable
              brightdata_path "K" (boot token_vars)
              (FetchRejected "fetch failed")
              (fetchFromVault unreachable brightdata_path
                 (boot token_vars)).2)
    as (s' & Hcall & Hnow & Hcache & Hlater);
    try (vm_compute; reflexivity).
  exists s'. split; [exact Hcall | ]. split; [exact Hcache | ]. split.
  - apply (Hlater (advance 29999 s')); [reflexivity | ].
    unfold advance; cbn [now]. rewrite Hnow. vm_compute. reflexivity.
  - apply (Hlater (advance 30000 s')); [reflexivity | ].
    unfold advance; cbn [now]. rewrite Hnow. vm_compute. discriminate.
Defined.


(** The entry stored under the key of [("a#b", "c")] answers the call for
    [("a", "b#c")]. *)
Lemma cacheKey_not_injective_witness :
  getSecret default_CACHE_TTL_MS unreachable "a" "b#c"
    (cached_process (cacheKey "a#b" "c") 1001)
  = (Returns (Some "old"), cached_process (cacheKey "a#b" "c") 1001).
Proof.
  apply (proj2 (proj2 (proj2
           (cacheKey_not_injective default_CACHE_TTL_MS unreachable)))
           (cached_process (cacheKey "a#b" "c") 1001)
           (mkCached (Some "old") 1001));
    vm_compute; reflexivity.
Defined.

(** * Further properties of the secret helper *)

Section HelperExtras.

Variable CACHE_TTL_MS : Z.
Variable net : Network.

Local Abbreviation resolve := (getSecret CACHE_TTL_MS net).

Ltac frame_auto :=
  repeat first
    [ apply framed_ret | apply framed_throw | apply framed_getenv
    | apply framed_fetch | apply framed_bind; [ | intros ? ]
    | match goal with
      | |- framed (if ?b then _ else _) => destruct b
      | |- framed (match ?x with Some _ => _ | None => _ end) => destruct x
      end ].


Lemma fetchFromVault_traffic path s :
  exists new,
    requests (fetchFromVault net path s).2 = new ++ requests s /\
    traffic path new.
Proof.
  destruct (store_ready s) eqn:Hready.
  2:{ destruct (fetchFromVault_not_ready net path s Hready) as [e ->].
      exists []. split; [reflexivity | constructor]. }
  unfold store_ready in Hready.
  apply andb_true_iff in Hready as [Ha Hc].
  apply truthy_env_inv in Ha as (addr & Ha & Hna).
  destruct (truthy_env (env s !! "VAULT_TOKEN")) eqn:Ht.
  - apply truthy_env_inv in Ht as (tok & Ht & Hnt).
    rewrite (fetchFromVault_static_requests net path s addr tok)
      by assumption.
    eexists [_]. split; [reflexivity | constructor].
  - cbn [orb] in Hc. apply andb_true_iff in Hc as [Hr Hs].
    apply truthy_env_inv in Hr as (role & Hr & Hnr).
    apply truthy_env_inv in Hs as (secret & Hs & Hns).
    rewrite (fetchFromVault_approle net path s addr role secret)
      by assumption.
    unfold bind, fetch, ret, throw. cbv beta iota zeta.
    destruct (result (net (now s) (requests s) _)) as [msg | lresp];
      [ eexists [_]; split; [reflexivity | constructor] | ].
    destruct (negb (ok lresp));
      [ eexists [_]; split; [reflexivity | constructor] | ].
    destruct (get_opt _ "client_token") as [tok | ]; cbn [negb truthy_value];
      [ | eexists [_]; split; [reflexivity | constructor] ].
    destruct (truthy tok) eqn:Htruthy; cbn [negb];
      [ | eexists [_]; split; [reflexivity | constructor] ].
    cbv beta iota zeta. rewrite Htruthy. cbn [negb]. cbv beta iota zeta.
    cbn [now requests env cache console].
    match goal with
    | |- context [match result ?r with _ => _ end] =>
        destruct (result r) as [msg | res]
    end;
      [ eexists [_; _]; split; [reflexivity | constructor] | ].
    destruct (negb (ok res));
      eexists [_; _]; (split; [reflexivity | constructor]).
Qed.

(** X1. [getSecret] never throws: whatever the configuration, the cache
    and the behaviour of the network, the call returns a string or
    [null]. *)
Theorem getSecret_never_throws path keyName s :
  exists v s',
    getSecret CACHE_TTL_MS net path keyName s = (Returns v, s').
Proof. apply getSecret_returns. Qed.

Lemma getSecret_requests_shape path keyName s :
  exists v s' new,
    resolve path keyName s = (Returns v, s') /\
    requests s' = new ++ requests s /\
    traffic path new.
Proof.
  destruct (live (now s) (cache s !! cacheKey path keyName)) as [c | ] eqn:Hl.
  - apply live_inv in Hl as [Hc Hlt].
    exists (value c), s, []. split; [by apply getSecret_hit | ].
    split; [reflexivity | constructor].
  - destruct (getSecret_miss CACHE_TTL_MS net path keyName s Hl)
      as (v & s' & c' & Hg & _ & _ & _ & Hr & _).
    destruct (fetchFromVault_traffic path s) as (new & Hnew & Htr).
    exists v, s', new. rewrite Hr. auto.
Qed.

(** X2. One call sends at most two requests, and only these: nothing, the
    secret read, the login, or the login followed by the secret read. *)
Theorem getSecret_traffic path keyName s :
  exists v s' new,
    getSecret CACHE_TTL_MS net path keyName s = (Returns v, s') /\
    requests s' = new ++ requests s /\
    traffic path new /\ (length new <= 2)%nat.
Proof.
  destruct (getSecret_requests_shape path keyName s)
    as (v & s' & new & Hg & Hr & Ht).
  exists v, s', new. repeat split; try assumption.
  destruct Ht; simpl; lia.
Qed.


Lemma fetchFromVault_no_client_token path s addr role secret resp lat :
  env s !! "VAULT_ADDR" = Some addr -> addr <> "" ->
  truthy_env (env s !! "VAULT_TOKEN") = false ->
  env s !! "VAULT_ROLE_ID" = Some role -> role <> "" ->
  env s !! "VAULT_SECRET_ID" = Some secret -> secret <> "" ->
  net (now s) (requests s) (login_request addr role secret)
  = mkReply (Resolved resp) lat ->
  ok resp = true ->
  truthy_value
    (get_opt (get_opt (Some (default (JObj []) (json_body resp))) "auth")
       "client_token")
  = false ->
  fetchFromVault net path s =
  (Throws AppRoleNoClientToken,
   mkState (env s) (cache s) (now s + Z.of_N lat)
     (login_request addr role secret :: requests s) (console s)).
Proof.
  intros Ha Hna Ht Hr Hnr Hs Hns Hnet Hok Htok.
  rewrite (fetchFromVault_approle net path s addr role secret) by assumption.
  unfold bind, fetch, ret, throw. cbv beta iota zeta.
  rewrite Hnet. cbn [result latency]. rewrite Hok.
  cbn [negb]. cbv beta iota zeta. rewrite Htok. reflexivity.
Qed.

(** X4. A login that succeeds but carries no usable [auth.client_token]
    (missing, [null], empty, or a body that is not JSON) ends the attempt:
    no secret read is sent and the call falls back to the environment,
    cached for the short time. *)
Theorem login_without_token_falls_back
    path keyName s addr role secret resp lat :
  live (now s) (cache s !! cacheKey path keyName) = None ->
  env s !! "VAULT_ADDR" = Some addr -> addr <> "" ->
  truthy_env (env s !! "VAULT_TOKEN") = false ->
  env s !! "VAULT_ROLE_ID" = Some role -> role <> "" ->
  env s !! "VAULT_SECRET_ID" = Some secret -> secret <> "" ->
  net (now s) (requests s) (login_request addr role secret)
  = mkReply (Resolved resp) lat ->
  ok resp = true ->
  truthy_value
    (get_opt (get_opt (Some (default (JObj []) (json_body resp))) "auth")
       "client_token")
  = false ->
  resolve path keyName s =
  (Returns (env s !! keyName),
   fallen_back CACHE_TTL_MS (cacheKey path keyName) keyName
     AppRoleNoClientToken
     (mkState (env s) (cache s) (now s + Z.of_N lat)
        (login_request addr role secret :: requests s) (console s))).
Proof.
  intros Hl Ha Hna Ht Hr Hnr Hs Hns Hnet Hok Htok.
  rewrite (getSecret_failed CACHE_TTL_MS net path keyName s _ _ Hl
             (fetchFromVault_no_client_token path s addr role secret resp lat
                Ha Hna Ht Hr Hnr Hs Hns Hnet Hok Htok)).
  reflexivity.
Qed.

Lemma fetchFromVault_no_auth path s :
  truthy_env (env s !! "VAULT_ADDR") = true ->
  truthy_env (env s !! "VAULT_TOKEN") = false ->
  truthy_env (env s !! "VAULT_ROLE_ID")
  && truthy_env (env s !! "VAULT_SECRET_ID") = false ->
  fetchFromVault net path s = (Throws NoVaultAuth, s).
Proof.
  intros Ha Ht Hc. unfold fetchFromVault.
  unfold bind, getenv, ret, throw. cbv beta iota zeta.
  rewrite Ha. cbn [negb]. cbv beta iota.
  rewrite Ht. cbn [negb andb]. rewrite Hc.
  destruct (env s !! "VAULT_TOKEN") as [tok | ];
    cbn [fmap option_fmap option_map]; [ | reflexivity ].
  cbn [truthy_env] in Ht. cbn [truthy]. rewrite Ht. reflexivity.
Qed.

(** X5. With a store address but neither a static token nor a complete
    role-id/secret-id pair, a miss sends nothing at all and returns the
    environment value of the key. *)
Theorem no_credential_no_traffic path keyName s :
  live (now s) (cache s !! cacheKey path keyName) = None ->
  truthy_env (env s !! "VAULT_ADDR") = true ->
  truthy_env (env s !! "VAULT_TOKEN") = false ->
  truthy_env (env s !! "VAULT_ROLE_ID")
  && truthy_env (env s !! "VAULT_SECRET_ID") = false ->
  resolve path keyName s =
  (Returns (env s !! keyName),
   fallen_back CACHE_TTL_MS (cacheKey path keyName) keyName NoVaultAuth s) /\
  requests
    (fallen_back CACHE_TTL_MS (cacheKey path keyName) keyName NoVaultAuth s)
  = requests s.
Proof.
  intros Hl Ha Ht Hc. split; [ | reflexivity ].
  erewrite getSecret_failed;
    [ | assumption | apply fetchFromVault_no_auth; assumption ].
  reflexivity.
Qed.



Lemma getSecret_other_entries path keyName s key :
  key <> cacheKey path keyName ->
  cache (resolve path keyName s).2 !! key = cache s !! key.
Proof.
  intros Hne.
  destruct (live (now s) (cache s !! cacheKey path keyName)) as [c | ] eqn:Hl.
  - apply live_inv in Hl as [Hc Hlt].
    by rewrite (getSecret_hit CACHE_TTL_MS net path keyName s c).
  - destruct (getSecret_miss CACHE_TTL_MS net path keyName s Hl)
      as (v & s' & c' & Hg & _ & _ & _ & _ & Hcache).
    rewrite Hg. cbn [snd]. rewrite Hcache. by rewrite lookup_insert_ne.
Qed.

(** X7. A call writes at most the cache entry of its own key: every
    other entry is left as it was, no entry is ever removed (an expired
    entry stays until it is overwritten), the environment is not touched
    and the clock does not go back. *)
Theorem getSecret_frame path keyName s :
  exists v s',
    resolve path keyName s = (Returns v, s') /\
    env s' = env s /\ now s <= now s' /\
    (forall key, key <> cacheKey path keyName ->
                 cache s' !! key = cache s !! key) /\
    (forall key, is_Some (cache s !! key) -> is_Some (cache s' !! key)).
Proof.
  destruct (live (now s) (cache s !! cacheKey path keyName)) as [c | ] eqn:Hl.
  - apply live_inv in Hl as [Hc Hlt].
    exists (value c), s. split; [by apply getSecret_hit | ].
    repeat split; auto; lia.
  - destruct (getSecret_miss CACHE_TTL_MS net path keyName s Hl)
      as (v & s' & c' & Hg & _ & He & Ht & _ & Hcache).
    exists v, s'. split; [exact Hg | ]. split; [exact He | ].
    split; [exact Ht | ]. rewrite Hcache. split.
    + intros key Hne. by rewrite lookup_insert_ne.
    + intros key Hsome.
      destruct (decide (cacheKey path keyName = key)) as [<- | Hne].
      * rewrite lookup_insert_eq. eauto.
      * by rewrite lookup_insert_ne.
Qed.

Lemma getSecret_keeps_bound path keyName s :
  cache_bounded CACHE_TTL_MS s ->
  cache_bounded CACHE_TTL_MS (resolve path keyName s).2.
Proof.
  intros Hb.
  destruct (live (now s) (cache s !! cacheKey path keyName)) as [c | ] eqn:Hl.
  { apply live_inv in Hl as [Hc Hlt].
    by rewrite (getSecret_hit CACHE_TTL_MS net path keyName s c). }
  pose proof (fetchFromVault_framed net path s)
    as (Hcache & new & _ & _ & Hnow & _).
  destruct (fetchFromVault net path s) as [[data | e] s1] eqn:Hf;
    cbn [snd] in *.
  - rewrite (getSecret_found CACHE_TTL_MS net path keyName s data s1)
      by assumption.
    unfold with_cache. cbn [snd]. intros key c. cbn [cache now].
    destruct (decide (cacheKey path keyName = key)) as [<- | Hne].
    + rewrite lookup_insert_eq. intros [= <-]. cbn [expiresAt]. lia.
    + rewrite lookup_insert_ne, Hcache by assumption.
      intros Hc. apply Hb in Hc. lia.
  - rewrite (getSecret_failed CACHE_TTL_MS net path keyName s e s1)
      by assumption.
    cbn [snd]. intros key c. cbn [cache now].
    destruct (decide (cacheKey path keyName = key)) as [<- | Hne].
    + rewrite lookup_insert_eq. intros [= <-]. cbn [expiresAt]. lia.
    + rewrite lookup_insert_ne, Hcache by assumption.
      intros Hc. apply Hb in Hc. lia.
Qed.

Lemma step_keeps_bound o s :
  cache_bounded CACHE_TTL_MS s ->
  cache_bounded CACHE_TTL_MS (step CACHE_TTL_MS net o s).
Proof.
  intros Hb. destruct o as [path keyName | | d]; cbn [step].
  - by apply getSecret_keeps_bound.
  - intros key c. unfold clearVaultCache, with_cache. cbn [snd cache].
    by rewrite lookup_empty.
  - intros key c. unfold advance. cbn [cache now]. intros Hc.
    apply Hb in Hc. lia.
Qed.

Lemma run_keeps_bound ops s :
  cache_bounded CACHE_TTL_MS s ->
  cache_bounded CACHE_TTL_MS (run CACHE_TTL_MS net ops s).
Proof.
  revert s. induction ops as [ | o ops IH]; intros s Hb; [exact Hb | ].
  cbn [run fold_left]. apply IH. by apply step_keeps_bound.
Qed.

(** X8. Through any sequence of calls, cache clears and waits that starts
    from an empty cache, no entry ever expires later than [CACHE_TTL_MS]
    after the current time. *)
Theorem cache_bounded_run ops s path keyName c :
  cache s = ∅ ->
  cache (run CACHE_TTL_MS net ops s) !! cacheKey path keyName = Some c ->
  expiresAt c <= now (run CACHE_TTL_MS net ops s) + CACHE_TTL_MS.
Proof.
  intros Hempty Hc.
  apply (run_keeps_bound ops s) in Hc; [exact Hc | ].
  intros key c0. by rewrite Hempty, lookup_empty.
Qed.

(** X9. With a TTL of zero or less the cache never serves anything: in
    every state reached from an empty cache, each call resolves afresh. *)
Theorem nonpositive_ttl_never_hits ops s path keyName :
  CACHE_TTL_MS <= 0 ->
  cache s = ∅ ->
  exists v s',
    resolve path keyName (run CACHE_TTL_MS net ops s) = (Returns v, s') /\
    resolved_afresh (run CACHE_TTL_MS net ops s) s'.
Proof.
  intros Httl Hempty.
  assert (Hb : cache_bounded CACHE_TTL_MS (run CACHE_TTL_MS net ops s)).
  { apply run_keeps_bound. intros key c. by rewrite Hempty, lookup_empty. }
  set (s1 := run CACHE_TTL_MS net ops s) in *.
  assert (Hl : live (now s1) (cache s1 !! cacheKey path keyName) = None).
  { destruct (cache s1 !! cacheKey path keyName) as [c | ] eqn:Hc;
      [ | reflexivity ].
    apply live_expired. apply Hb in Hc. lia. }
  destruct (getSecret_miss CACHE_TTL_MS net path keyName s1 Hl)
    as (v & s' & c' & Hg & Hr & _).
  eauto.
Qed.




Lemma strip_trailing_slash_app (a : string) :
  strip_trailing_slash (a +:+ "/") = a.
Proof.
  induction a as [ | c r IH]; [reflexivity | ].
  destruct r as [ | c' r']; [reflexivity | ].
  change (String c (strip_trailing_slash (String c' r' +:+ "/"))
          = String c (String c' r')).
  by rewrite IH.
Qed.

Lemma strip_trailing_slash_id (a : string) :
  (forall b, a <> b +:+ "/") -> strip_trailing_slash a = a.
Proof.
  induction a as [ | c r IH]; intros Hno; [reflexivity | ].
  destruct r as [ | c' r'].
  - cbn [strip_trailing_slash].
    destruct (Ascii.eqb_spec c "/") as [-> | _]; [ | reflexivity ].
    by destruct (Hno "").
  - change (String c (strip_trailing_slash (String c' r'))
            = String c (String c' r')).
    rewrite IH; [reflexivity | ].
    intros b Hb. apply (Hno (String c b)). cbn. by rewrite Hb.
Qed.

Lemma strip_leading_slashes_no_slash (p rest : string) :
  strip_leading_slashes p <> String "/" rest.
Proof.
  induction p as [ | c r IH]; [discriminate | ].
  cbn [strip_leading_slashes].
  destruct (Ascii.eqb_spec c "/") as [-> | Hne]; [exact IH | ].
  intros [= Hc _]. contradiction.
Qed.

(** X12. The store address may be written with or without a final slash
    and the path with any number of leading slashes: the requests are the
    same. Exactly one final slash of the address is dropped, every leading
    slash of the path is. *)
Theorem request_urls_normalised addr path tok role secret :
  url (read_request (addr +:+ "/") path tok)
  = addr +:+ "/v1/" +:+ strip_leading_slashes path /\
  url (login_request (addr +:+ "/") role secret)
  = addr +:+ "/v1/auth/approle/login" /\
  read_request addr ("/" +:+ path) tok = read_request addr path tok /\
  (forall rest, strip_leading_slashes path <> String "/" rest) /\
  ((forall b, addr <> b +:+ "/") ->
   read_request (addr +:+ "/") path tok = read_request addr path tok /\
   login_request (addr +:+ "/") role secret = login_request addr role secret).
Proof.
  unfold read_request, login_request. cbn [url].
  rewrite strip_trailing_slash_app.
  split; [reflexivity | ]. split; [reflexivity | ].
  split; [reflexivity | ].
  split; [apply strip_leading_slashes_no_slash | ].
  intros Hno. by rewrite (strip_trailing_slash_id addr Hno).
Qed.

Lemma cacheKey_inj_no_hash p1 k1 p2 k2 :
  has_hash p1 = false -> has_hash p2 = false ->
  cacheKey p1 k1 = cacheKey p2 k2 -> p1 = p2 /\ k1 = k2.
Proof.
  unfold cacheKey. revert p2.
  induction p1 as [ | c r IH]; intros [ | c' r'] H1 H2 Heq.
  - change (String "#" k1 = String "#" k2) in Heq. by injection Heq as ->.
  - change (String "#" k1 = String c' (r' +:+ "#" +:+ k2)) in Heq.
    injection Heq as <- _. cbn [has_hash] in H2.
    by rewrite Ascii.eqb_refl in H2.
  - change (String c (r +:+ "#" +:+ k1) = String "#" k2) in Heq.
    injection Heq as -> _. cbn [has_hash] in H1.
    by rewrite Ascii.eqb_refl in H1.
  - change (String c (r +:+ "#" +:+ k1) = String c' (r' +:+ "#" +:+ k2))
      in Heq.
    injection Heq as -> Heq.
    cbn [has_hash] in H1, H2. apply orb_false_iff in H1 as [_ H1].
    apply orb_false_iff in H2 as [_ H2].
    destruct (IH r' H1 H2 Heq) as [-> ->]. done.
Qed.

(** X13. For paths that contain no ["#"] the cache key tells the pairs
    apart, so entries are independent: a call for one pair leaves the
    entry of every other pair as it was. *)
Theorem entries_independent_without_hash path1 key1 path2 key2 s :
  has_hash path1 = false -> has_hash path2 = false ->
  (path1, key1) <> (path2, key2) ->
  cacheKey path1 key1 <> cacheKey path2 key2 /\
  cache (resolve path1 key1 s).2 !! cacheKey path2 key2
  = cache s !! cacheKey path2 key2.
Proof.
  intros H1 H2 Hne.
  assert (Hkey : cacheKey path1 key1 <> cacheKey path2 key2).
  { intros Heq.
    destruct (cacheKey_inj_no_hash path1 key1 path2 key2 H1 H2 Heq)
      as [-> ->].
    by apply Hne. }
  split; [exact Hkey | ].
  apply getSecret_other_entries. congruence.
Qed.

End HelperExtras.

(** * Properties of the Bright Data helpers *)


Section BrightDataHelpers.

Variable CACHE_TTL_MS : Z.
Variable net : Network.

(** ** [encodeURIComponent] *)

Lemma percent_not_unreserved : unreserved "%" = false.
Proof. reflexivity. Qed.

Lemma encode_cons_plain c rest :
  unreserved c = true ->
  encodeURIComponent (String c rest) = String c (encodeURIComponent rest).
Proof. intros H. cbn [encodeURIComponent]. rewrite H. reflexivity. Qed.

Lemma encode_cons_escaped c rest :
  unreserved c = false ->
  encodeURIComponent (String c rest)
  = String "%"
      (String (hex_digit (N_of_ascii c / 16))
         (String (hex_digit (N_of_ascii c mod 16))
            (encodeURIComponent rest))).
Proof. intros H. cbn [encodeURIComponent]. rewrite H. reflexivity. Qed.

Lemma hex_digit_unreserved c :
  unreserved (hex_digit (N_of_ascii c / 16)) = true /\
  unreserved (hex_digit (N_of_ascii c mod 16)) = true.
Proof.
  destruct c as [[] [] [] [] [] [] [] []]; vm_compute; split; reflexivity.
Qed.

Lemma hex_value_digit (n : N) : (n < 16)%N -> hex_value (hex_digit n) = n.
Proof.
  intros H. unfold hex_value, hex_digit.
  destruct (N.ltb_spec n 10) as [Hlt | Hge];
    rewrite N_ascii_embedding by lia.
  - destruct (N.ltb_spec (48 + n) 58); lia.
  - destruct (N.ltb_spec (55 + n) 58); lia.
Qed.

Lemma escape_inj c c' :
  hex_digit (N_of_ascii c / 16) = hex_digit (N_of_ascii c' / 16) ->
  hex_digit (N_of_ascii c mod 16) = hex_digit (N_of_ascii c' mod 16) ->
  c = c'.
Proof.
  intros Hhi Hlo.
  pose proof (N_ascii_bounded c) as Hc.
  pose proof (N_ascii_bounded c') as Hc'.
  apply (f_equal hex_value) in Hhi, Hlo.
  rewrite !hex_value_digit in Hhi, Hlo
    by (try apply N.mod_lt; try apply N.Div0.div_lt_upper_bound; lia).
  rewrite <- (ascii_N_embedding c), <- (ascii_N_embedding c').
  f_equal.
  rewrite (N.div_mod (N_of_ascii c) 16), (N.div_mod (N_of_ascii c') 16)
    by lia.
  congruence.
Qed.

Lemma encodeURIComponent_inj a b :
  encodeURIComponent a = encodeURIComponent b -> a = b.
Proof.
  revert b. induction a as [ | c r IH]; intros [ | c' r'] H.
  - reflexivity.
  - cbn [encodeURIComponent] in H. destruct (unreserved c'); discriminate.
  - cbn [encodeURIComponent] in H. destruct (unreserved c); discriminate.
  - destruct (unreserved c) eqn:Hc, (unreserved c') eqn:Hc'.
    + rewrite (encode_cons_plain c r Hc), (encode_cons_plain c' r' Hc') in H.
      injection H as -> H. by rewrite (IH r' H).
    + rewrite (encode_cons_plain c r Hc), (encode_cons_escaped c' r' Hc')
        in H.
      injection H as -> _. by rewrite percent_not_unreserved in Hc.
    + rewrite (encode_cons_escaped c r Hc), (encode_cons_plain c' r' Hc')
        in H.
      injection H as <- _. by rewrite percent_not_unreserved in Hc'.
    + rewrite (encode_cons_escaped c r Hc), (encode_cons_escaped c' r' Hc')
        in H.
      injection H as Hhi Hlo H.
      rewrite (escape_inj c c' Hhi Hlo). by rewrite (IH r' H).
Qed.

Lemma chars_app (a b : string) :
  list_ascii_of_string (a +:+ b)
  = list_ascii_of_string a ++ list_ascii_of_string b.
Proof.
  induction a as [ | c r IH]; [reflexivity | ].
  change (c :: list_ascii_of_string (r +:+ b)
          = c :: (list_ascii_of_string r ++ list_ascii_of_string b)).
  by rewrite IH.
Qed.

Lemma append_inj_l (x a b : string) : x +:+ a = x +:+ b -> a = b.
Proof.
  induction x as [ | c r IH]; intros H; [exact H | ].
  change (String c (r +:+ a) = String c (r +:+ b)) in H.
  injection H as H. by apply IH.
Qed.

Lemma append_inj_r (a b z : string) : a +:+ z = b +:+ z -> a = b.
Proof.
  intros H. apply (f_equal list_ascii_of_string) in H.
  rewrite !chars_app in H. apply app_inv_tail in H.
  rewrite <- (string_of_list_ascii_of_string a),
          <- (string_of_list_ascii_of_string b).
  by rewrite H.
Qed.

(** X14. [encodeURIComponent] only ever produces unreserved characters
    and ["%"]: an identifier cannot bring a ["/"], ["?"], ["#"] or ["&"]
    into an endpoint address. *)
Theorem encodeURIComponent_safe id c :
  In c (list_ascii_of_string (encodeURIComponent id)) ->
  (unreserved c = true \/ c = "%"%char) /\
  c <> "/"%char /\ c <> "?"%char /\ c <> "#"%char /\ c <> "&"%char.
Proof.
  intros Hin.
  assert (H : unreserved c = true \/ c = "%"%char).
  { induction id as [ | x rest IH]; [destruct Hin | ].
    destruct (unreserved x) eqn:Hx.
    - rewrite encode_cons_plain in Hin by assumption.
      destruct Hin as [<- | Hin]; [by left | by apply IH].
    - rewrite encode_cons_escaped in Hin by assumption.
      destruct (hex_digit_unreserved x) as [Hhi Hlo].
      destruct Hin as [<- | [<- | [<- | Hin]]];
        [by right | by left | by left | by apply IH]. }
  split; [exact H | ].
  repeat split; intros ->; destruct H as [H | H]; discriminate.
Qed.

(** X15. [encodeURIComponent] loses nothing: different identifiers give
    different escapes, and so different addresses at each of the five
    identifier-bearing endpoints. *)
Theorem endpoint_urls_injective a b :
  (encodeURIComponent a = encodeURIComponent b -> a = b) /\
  (snapshotMetaUrl a = snapshotMetaUrl b -> a = b) /\
  (snapshotPartsUrl a = snapshotPartsUrl b -> a = b) /\
  (snapshotDownloadUrl a = snapshotDownloadUrl b -> a = b) /\
  (deliverSnapshotUrl a = deliverSnapshotUrl b -> a = b) /\
  (datasetMetadataUrl a = datasetMetadataUrl b -> a = b).
Proof.
  split; [apply encodeURIComponent_inj | ].
  repeat split; intros H;
    apply encodeURIComponent_inj;
    do 2 apply append_inj_l in H;
    by apply append_inj_r in H.
Qed.

(** X16. An identifier made of unreserved characters only is written
    into the address unchanged. *)
Theorem encodeURIComponent_plain id :
  Forall (fun c => unreserved c = true) (list_ascii_of_string id) ->
  encodeURIComponent id = id /\
  snapshotMetaUrl id = BASE +:+ "/snapshots/" +:+ id +:+ "/meta".
Proof.
  intros H.
  assert (He : encodeURIComponent id = id).
  { induction id as [ | c rest IH]; [reflexivity | ].
    cbn [list_ascii_of_string] in H. inversion H as [ | ? ? Hc Hrest]; subst.
    rewrite encode_cons_plain by assumption. by rewrite IH. }
  split; [exact He | ]. unfold snapshotMetaUrl. by rewrite He.
Qed.

(** ** [ensureToken] *)

Local Abbreviation token_path := "secret/data/dealstream/brightdata".
Local Abbreviation token_key := "BRIGHTDATA_API_TOKEN".

Lemma truthy_env_default (o : option string) :
  truthy_env o = true -> default "" o <> "".
Proof.
  intros H. apply truthy_env_inv in H as (v & -> & Hv). exact Hv.
Qed.

(** X17. [ensureToken] either hands out a non-empty token or throws its
    own "Missing BRIGHTDATA_API_TOKEN" error; no error of the secret
    helper reaches its caller. *)
Theorem ensureToken_outcome s :
  exists s',
    ensureToken CACHE_TTL_MS net s = (MissingToken, s') \/
    exists t, t <> "" /\ ensureToken CACHE_TTL_MS net s = (Token t, s').
Proof.
  unfold ensureToken.
  destruct (getSecret_returns CACHE_TTL_MS net token_path token_key s)
    as (v & s' & ->).
  exists s'. destruct (truthy_env v) eqn:Hv; cbn [negb]; [right | by left].
  exists (default "" v). split; [by apply truthy_env_default | reflexivity].
Qed.


(** X19. When the store has the collection but not the token field and the
    environment has the token, the first [ensureToken] hands out the
    environment token, and every later one that still sees the cached
    entry, until [CACHE_TTL_MS] after the read, throws "Missing
    BRIGHTDATA_API_TOKEN (Vault and env fallback failed)". *)
Theorem ensureToken_fails_on_cached_absence s data s1 v :
  live (now s) (cache s !! cacheKey token_path token_key) = None ->
  fetchFromVault net token_path s = (Returns data, s1) ->
  get data token_key = None ->
  env s !! token_key = Some v -> v <> "" ->
  exists s',
    ensureToken CACHE_TTL_MS net s = (Token v, s') /\
    forall s2,
      cache s2 !! cacheKey token_path token_key
      = cache s' !! cacheKey token_path token_key ->
      now s2 < now s1 + CACHE_TTL_MS ->
      ensureToken CACHE_TTL_MS net s2 = (MissingToken, s2).
Proof.
  intros Hl Hf Hg Hv Hnv. unfold ensureToken.
  pose proof (fetchFromVault_framed net token_path s) as (_ & _ & He & _).
  rewrite Hf in He; cbn [snd] in He.
  assert (Hfield : field data token_key = None).
  { unfold field. rewrite Hg. by destruct (truthy data). }
  rewrite (getSecret_found CACHE_TTL_MS net token_path token_key s data s1)
    by assumption.
  rewrite Hfield, He, Hv, !truthy_env_Some by assumption.
  cbn [negb default from_option id].
  eexists. split; [reflexivity | ].
  unfold with_cache. cbn [cache]. rewrite lookup_insert_eq.
  intros s2 Hc Ht.
  pose proof (getSecret_hit CACHE_TTL_MS net token_path token_key s2 _ Hc)
    as Hh.
  cbn [value expiresAt] in Hh. rewrite (Hh Ht). reflexivity.
Qed.

(** ** [applyDryRunGuard] *)

(** X20. With [dryRun] set the payload leaves with a limit of at most 1:
    exactly 1 when it came without a limit or with one of at least 1, and
    the incoming limit itself when that is 0 or negative. Nothing else in
    the payload changes. *)
Theorem dry_run_limit_at_most_one payload cap :
  exists l,
    limit (applyDryRunGuard payload (Some (mkGuardOpts (Some true) cap)))
    = Some l /\
    l <= 1 /\
    (l = 1 \/ payload ≫= limit = Some l) /\
    (forall l0, payload ≫= limit = Some l0 -> 1 <= l0 -> l = 1) /\
    (payload ≫= limit = None -> l = 1) /\
    others (applyDryRunGuard payload (Some (mkGuardOpts (Some true) cap)))
    = others (default (mkPayload None []) payload).
Proof.
  unfold applyDryRunGuard. cbn [mbind option_bind dryRun default from_option id].
  destruct payload as [[[l0 | ] rest] | ];
    cbn [limit others default from_option id mbind option_bind];
    eexists; (split; [reflexivity | ]);
    repeat split; try lia; try discriminate; auto;
    try (intros ? [= <-]; lia).
  destruct (Z.min_spec l0 1) as [[_ ->] | [_ ->]]; auto.
Qed.

(** X21. The guard never raises a limit, and without [dryRun] it never
    adds one: a [softCap] of 0 caps nothing, and the rest of the payload
    is untouched in every case. Guarding twice is the same as guarding
    once. *)
Theorem guard_never_raises_limit payload opts :
  let out := applyDryRunGuard payload opts in
  others out = others (default (mkPayload None []) payload) /\
  (forall l0, payload ≫= limit = Some l0 ->
              exists l, limit out = Some l /\ l <= l0) /\
  (opts ≫= dryRun <> Some true -> payload ≫= limit = None ->
   limit out = None) /\
  (opts ≫= dryRun <> Some true -> opts ≫= softCap = Some 0 ->
   out = default (mkPayload None []) payload) /\
  applyDryRunGuard (Some out) opts = out.
Proof.
  unfold applyDryRunGuard.
  destruct opts as [[[[] | ] [cap | ]] | ],
           payload as [[[l0 | ] rest] | ];
    cbn [mbind option_bind dryRun softCap default from_option id limit others];
    try destruct (Z.eqb_spec cap 0); cbn [negb limit others];
    repeat split; try discriminate; try congruence;
    try (intros ? [= <-]; eexists; split; [reflexivity | lia]);
    try (f_equal; f_equal; lia).
Qed.

End BrightDataHelpers.

(** * Properties of the callers of the secret helper *)

Section CallerProperties.

Variable w : World.
Variable CACHE_TTL_MS : Z.
Variable net : Network.

Local Abbreviation token_path := "secret/data/dealstream/brightdata".
Local Abbreviation token_key := "BRIGHTDATA_API_TOKEN".

Ltac stepR :=
  unfold bindR, retR, raise, catchR, nowR, console_errorR, lift, Date_now,
    console_error, with_process, with_console;
  cbv beta iota zeta.

Lemma quiet_refl sv : quiet sv sv.
Proof. by repeat split. Qed.

(** ** The logging block *)

Lemma getSupabaseClient_state sv :
  (getSupabaseClient w sv).2 = sv.
Proof.
  unfold getSupabaseClient, raise, retR.
  destruct (_ || _); [reflexivity | ].
  destruct (createClient_throws w) as [[name message] | ]; reflexivity.
Qed.

Lemma best_effort_log_quiet label (f : Z -> LogOpts) sv :
  exists sv',
    best_effort_log w label (let+ t := nowR in retR (f t)) sv
    = (Done tt, sv') /\
    quiet sv sv' /\
    logged_at_most
      (fun row => row = log_row (f (now (process sv))) (now (process sv)))
      sv sv'.
Proof.
  unfold best_effort_log, catchR, bindR at 1.
  pose proof (getSupabaseClient_state sv) as Hc.
  destruct (getSupabaseClient w sv) as [[[] | name message] sv0];
    cbn [snd] in Hc; subst sv0.
  2:{ stepR. destruct sv as [[e c t rq co] logs]. cbn.
      eexists. split; [reflexivity | ].
      split; [by repeat split | by left]. }
  unfold logBrightDataInteraction. stepR.
  destruct sv as [[e c t rq co] logs].
  cbn [process bd_logs env cache now requests console].
  destruct (insert w logs _) as [ | error | name message] eqn:Hins.
  - eexists. split; [reflexivity | ].
    split; [by repeat split | ]. right. eexists. split; reflexivity.
  - eexists. split; [reflexivity | ].
    split; [by repeat split | by left].
  - eexists. split; [reflexivity | ].
    split; [by repeat split | by left].
Qed.

(** ** Computations that leave the process alone *)

Lemma quiet_trans sv1 sv2 sv3 : quiet sv1 sv2 -> quiet sv2 sv3 -> quiet sv1 sv3.
Proof.
  unfold quiet. intros (E1 & C1 & T1 & R1) (E2 & C2 & T2 & R2).
  repeat split; congruence.
Qed.

Lemma silent_ret {A} (a : A) : silent (retR a).
Proof. intros sv. apply quiet_refl. Qed.

Lemma silent_raise {A} name message : silent (@raise A name message).
Proof. intros sv. apply quiet_refl. Qed.

Lemma silent_now : silent nowR.
Proof. intros sv. by repeat split. Qed.

Lemma silent_console line : silent (console_errorR line).
Proof. intros sv. by repeat split. Qed.

Lemma silent_client : silent (getSupabaseClient w).
Proof. intros sv. rewrite getSupabaseClient_state. apply quiet_refl. Qed.

Lemma silent_bind {A B} (m : R A) (f : A -> R B) :
  silent m -> (forall a, silent (f a)) -> silent (bindR m f).
Proof.
  intros Hm Hf sv. unfold bindR. pose proof (Hm sv) as H1.
  destruct (m sv) as [[a | name message] sv1]; cbn [snd] in *.
  - eapply quiet_trans; [exact H1 | apply Hf].
  - exact H1.
Qed.

Lemma silent_catch {A} (m : R A) (h : string -> string -> R A) :
  silent m -> (forall name message, silent (h name message)) ->
  silent (catchR m h).
Proof.
  intros Hm Hh sv. unfold catchR. pose proof (Hm sv) as H1.
  destruct (m sv) as [[a | name message] sv1]; cbn [snd] in *.
  - exact H1.
  - eapply quiet_trans; [exact H1 | apply Hh].
Qed.

Lemma silent_log o : silent (logBrightDataInteraction w o).
Proof.
  unfold logBrightDataInteraction. apply silent_bind; [apply silent_now | ].
  intros t sv.
  destruct (insert w (bd_logs sv) _) as [ | error | name message].
  - by repeat split.
  - by repeat split.
  - apply quiet_refl.
Qed.

Lemma silent_text res : silent (res_text w res).
Proof.
  unfold res_text. destruct (text_body res);
    [apply silent_ret | apply silent_raise].
Qed.

Lemma silent_response data st ct : silent (new_NextResponse w data st ct).
Proof.
  unfold new_NextResponse. destruct (_ || _); [apply silent_raise | ].
  destruct (null_body_status st); [apply silent_raise | apply silent_ret].
Qed.

Ltac silence :=
  repeat first
    [ apply silent_ret | apply silent_raise | apply silent_now
    | apply silent_console | apply silent_client | apply silent_log
    | apply silent_text | apply silent_response
    | apply silent_bind; [ | intros ? ]
    | apply silent_catch; [ | intros ? ? ] ].

Lemma silent_best_effort label opts :
  silent opts -> silent (best_effort_log w label opts).
Proof. intros H. unfold best_effort_log. silence. exact H. Qed.

(** ** The deliver-snapshot route *)

Local Abbreviation route := (POST_deliver_snapshot w CACHE_TTL_MS net).

Lemma route_no_snapshot_id req_json sv :
  req_json <> Some JNull ->
  truthy_value (get (default (JObj []) req_json) "snapshot_id") = false ->
  route req_json sv
  = (NextResponse_json (JObj [("error", JStr "snapshot_id is required")]) 400,
     sv).
Proof.
  intros Hnull Hsid. unfold POST_deliver_snapshot, POST_try.
  destruct (default (JObj []) req_json) as [ | b | z | t | l | ms] eqn:Hbody.
  { destruct req_json as [[] | ]; try discriminate. by destruct Hnull. }
  all: destruct (get _ "snapshot_id") as [sid | ]; [ | reflexivity ];
    cbn [truthy_value] in Hsid; rewrite Hsid; reflexivity.
Qed.

Lemma route_no_token req_json sv sid token s1 :
  get (default (JObj []) req_json) "snapshot_id" = Some sid ->
  truthy sid = true ->
  getSecret CACHE_TTL_MS net token_path token_key (process sv)
  = (Returns token, s1) ->
  truthy_env token = false ->
  route req_json sv
  = (NextResponse_json
       (JObj [("error",
               JStr "Missing BRIGHTDATA_API_TOKEN (Vault/env fallback)")])
       500,
     mkServer s1 (bd_logs sv)).
Proof.
  intros Hsid Htruthy Hget Htok. unfold POST_deliver_snapshot, POST_try.
  destruct (default (JObj []) req_json) as [ | b | z | t | l | ms];
    try discriminate.
  rewrite Hsid, Htruthy. cbn [negb]. stepR. rewrite Hget, Htok. reflexivity.
Qed.

Lemma route_dry_run req_json sv sid token s1 :
  get (default (JObj []) req_json) "snapshot_id" = Some sid ->
  truthy sid = true ->
  getSecret CACHE_TTL_MS net token_path token_key (process sv)
  = (Returns (Some token), s1) ->
  token <> "" ->
  truthy (default (JBool false) (get (default (JObj []) req_json) "dryRun"))
  = true ->
  exists sv',
    route req_json sv = (NextResponse_json (simulated sid) 200, sv') /\
    quiet (mkServer s1 (bd_logs sv)) sv' /\
    logged_at_most (fun row => row_status row = "dry-run") sv sv'.
Proof.
  intros Hsid Htruthy Hget Htok Hdry.
  unfold POST_deliver_snapshot, POST_try.
  destruct (default (JObj []) req_json) as [ | b | z | t | l | ms];
    try discriminate.
  rewrite Hsid, Htruthy. cbn [negb].
  unfold bindR at 1, lift at 1. rewrite Hget.
  rewrite truthy_env_Some by assumption. cbn [negb]. cbv beta iota zeta.
  rewrite Hdry. unfold bindR at 1.
  match goal with
  | |- context [best_effort_log w ?label (bindR nowR (fun t => retR (@?f t)))
                  ?sv0] =>
      destruct (best_effort_log_quiet label f sv0)
        as (sv' & -> & Hq & Hlog)
  end.
  exists sv'. split; [reflexivity | ]. split; [exact Hq | ].
  destruct Hlog as [Hlog | (row & Hlog & ->)]; [by left | right].
  eexists. split; [exact Hlog | reflexivity].
Qed.

Lemma route_forward req_json sv sid token s1 r lat :
  get (default (JObj []) req_json) "snapshot_id" = Some sid ->
  truthy sid = true ->
  getSecret CACHE_TTL_MS net token_path token_key (process sv)
  = (Returns (Some token), s1) ->
  token <> "" ->
  truthy (default (JBool false) (get (default (JObj []) req_json) "dryRun"))
  = false ->
  net (now s1) (requests s1)
    (deliver_request sid token
       (default (JObj []) (get (default (JObj []) req_json) "delivery_params")))
  = mkReply r lat ->
  exists sv',
    route req_json sv = (forwarded w r, sv') /\
    quiet
      (mkServer
         (mkState (env s1) (cache s1) (now s1 + Z.of_N lat)
            (deliver_request sid token
               (default (JObj [])
                  (get (default (JObj []) req_json) "delivery_params"))
               :: requests s1)
            (console s1))
         (bd_logs sv))
      sv' /\
    (forall res, r = Resolved res -> forward_failure w r = None ->
                 logged_at_most
                   (fun row => row_status row = ok_or_error (status res))
                   sv sv').
Proof.
  intros Hsid Htruthy Hget Htok Hdry Hnet.
  unfold POST_deliver_snapshot, POST_try.
  destruct (default (JObj []) req_json) as [ | b | z | t | l | ms];
    try discriminate.
  rewrite Hsid, Htruthy. cbn [negb].
  unfold bindR at 1, lift at 1. rewrite Hget.
  rewrite truthy_env_Some by assumption. cbn [negb]. cbv beta iota zeta.
  rewrite Hdry. cbn [default from_option id].
  unfold bindR at 1, lift at 1, fetch.
  unfold with_process. cbn [process bd_logs]. rewrite Hnet.
  cbn [result latency].
  set (sv2 := mkServer (mkState _ _ _ (_ :: _) _) _).
  assert (Hcatch : forall start name message sv0,
    quiet sv2 sv0 ->
    exists sv',
      (let (_, sv'') :=
         (do+ catchR
                (do+ getSupabaseClient w in
                 let+ t := nowR in
                 do+ logBrightDataInteraction w
                       (mkLogOpts "marketplace_dataset"
                          "/marketplace/datasets/snapshots/:snapshot_id/deliver"
                          "POST" (JObj [])
                          (JObj [("error", JStr (detail name message))])
                          (Some "error")
                          (Some (duration_meta start t))) in
                 retR tt)
                (fun _ _ => retR tt) in
          console_errorR
            ("Marketplace deliver-snapshot proxy error: "
               +:+ detail name message)) sv0 in
       (internal_error name message, sv''))
      = (internal_error name message, sv') /\
      quiet sv2 sv').
  { intros start name message sv0 Hq0.
    match goal with
    | |- context [let (_, _) := ?m sv0 in _] =>
        assert (Hs : silent m) by silence;
        specialize (Hs sv0); destruct (m sv0) as [r0 sv'']
    end.
    cbn [snd] in Hs. exists sv''. split; [reflexivity | ].
    eapply quiet_trans; eassumption. }
  destruct r as [msg | res].
  { destruct (Hcatch (now (process sv)) "TypeError" msg sv2 (quiet_refl sv2))
      as (sv' & Hr & Hq).
    exists sv'. split; [exact Hr | ]. split; [exact Hq | discriminate]. }
  unfold bindR at 1, res_text. unfold forwarded, forward_failure.
  destruct (text_body res) as [text | ].
  2:{ unfold raise. destruct (text_rejection w) as [name message].
      destruct (Hcatch (now (process sv)) name message sv2 (quiet_refl sv2))
        as (sv' & Hr & Hq).
      exists sv'. split; [exact Hr | ]. split; [exact Hq | ].
      intros res0 _ [=]. }
  unfold retR at 1. unfold bindR at 1.
  match goal with
  | |- context [best_effort_log w ?label (bindR nowR (fun t => retR (@?f t)))
                  ?sv0] =>
      destruct (best_effort_log_quiet label f sv0)
        as (sv3 & -> & Hq3 & Hlog)
  end.
  unfold new_NextResponse.
  destruct ((status res <? 200) || (599 <? status res)).
  { unfold raise.
    destruct (Hcatch (now (process sv)) "RangeError"
                (status_range_message w) sv3 Hq3) as (sv' & Hr & Hq).
    exists sv'. split; [exact Hr | ]. split; [exact Hq | ].
    intros res0 _ [=]. }
  destruct (null_body_status (status res)).
  { unfold raise.
    destruct (Hcatch (now (process sv)) "TypeError"
                (null_body_message w) sv3 Hq3) as (sv' & Hr & Hq).
    exists sv'. split; [exact Hr | ]. split; [exact Hq | ].
    intros res0 _ [=]. }
  unfold retR, mirrored. cbn [from_option id].
  exists sv3.
  split; [by destruct (parse_or_text res text) | ]. split; [exact Hq3 | ].
  intros res0 [= <-] _.
  destruct Hlog as [Hlog | (row & Hlog & ->)]; [by left | right].
  eexists. split; [exact Hlog | ].
  unfold log_row. cbn [row_status opt_status]. unfold ok_or_error.
  by destruct ((200 <=? status res) && (status res <? 300)).
Qed.

Lemma route_null_body sv :
  exists sv',
    route (Some JNull) sv
    = (internal_error "TypeError" (destructure_message w), sv') /\
    quiet sv sv'.
Proof.
  unfold POST_deliver_snapshot, POST_try. cbn [default from_option id].
  unfold raise at 1.
  match goal with
  | |- context [let (_, _) := ?m sv in _] =>
      assert (Hs : silent m) by silence;
      specialize (Hs sv); destruct (m sv) as [r0 sv'']
  end.
  exists sv''. split; [reflexivity | exact Hs].
Qed.

(** X22. A request without a usable [snapshot_id] (no JSON body at all, a
    body without the member, or a member that is [null], [false], [0] or
    the empty string) is answered 400 before anything else happens: no
    secret is looked up, nothing is sent, nothing is logged. *)
Theorem deliver_requires_snapshot_id req_json sv :
  req_json <> Some JNull ->
  truthy_value (get (default (JObj []) req_json) "snapshot_id") = false ->
  route req_json sv
  = (NextResponse_json (JObj [("error", JStr "snapshot_id is required")]) 400,
     sv).
Proof. apply route_no_snapshot_id. Qed.

(** X23. With a [snapshot_id] but no token from the secret helper, the
    route answers 500 "Missing BRIGHTDATA_API_TOKEN (Vault/env fallback)";
    the process is as the helper left it, so nothing went to Bright Data,
    and nothing is logged. *)
Theorem deliver_requires_token req_json sv sid token s1 :
  get (default (JObj []) req_json) "snapshot_id" = Some sid ->
  truthy sid = true ->
  getSecret CACHE_TTL_MS net token_path token_key (process sv)
  = (Returns token, s1) ->
  truthy_env token = false ->
  route req_json sv
  = (NextResponse_json
       (JObj [("error",
               JStr "Missing BRIGHTDATA_API_TOKEN (Vault/env fallback)")])
       500,
     mkServer s1 (bd_logs sv)).
Proof. apply route_no_token. Qed.





(** ** [fetchBrightData] *)

Local Abbreviation call := (fetchBrightData w CACHE_TTL_MS net).

Lemma strip_prefix_app (p rest : string) :
  strip_prefix p (p +:+ rest) = Some rest.
Proof.
  induction p as [ | c p IH]; [by destruct rest | ].
  change (String c p +:+ rest) with (String c (p +:+ rest)).
  cbn [strip_prefix]. by rewrite Ascii.eqb_refl.
Qed.

Lemma remove_first_prefix (p rest : string) :
  remove_first p (p +:+ rest) = rest.
Proof.
  destruct (p +:+ rest) eqn:E; cbn [remove_first];
    rewrite <- E, strip_prefix_app; reflexivity.
Qed.

Lemma fetchBrightData_resolved method url body opts sv token s1 res text lat :
  ensureToken CACHE_TTL_MS net (process sv) = (Token token, s1) ->
  net (now s1) (requests s1) (brightdata_request method url token body)
  = mkReply (Resolved res) lat ->
  text_body res = Some text ->
  exists sv',
    call method url body opts sv
    = (Done (mkBrightDataReply (status res) res (parse_or_text res text)),
       sv') /\
    quiet
      (mkServer
         (mkState (env s1) (cache s1) (now s1 + Z.of_N lat)
            (brightdata_request method url token body :: requests s1)
            (console s1))
         (bd_logs sv))
      sv' /\
    logged_at_most
      (fun row =>
         row_status row = ok_or_error (status res) /\
         row_method row = method_name method /\
         row_endpoint row
         = if truthy_env (opts ≫= fo_endpoint)
           then default "" (opts ≫= fo_endpoint)
           else remove_first BASE url)
      sv sv'.
Proof.
  intros Htok Hnet Htext. destruct sv as [p logs].
  cbn [process bd_logs] in *.
  unfold fetchBrightData.
  unfold bindR at 1, nowR at 1, lift at 1, Date_now, with_process.
  cbn [process bd_logs]. cbv beta iota zeta.
  unfold bindR at 1, ensureTokenR. cbn [process]. rewrite Htok.
  unfold with_process. cbn [process bd_logs]. cbv beta iota zeta.
  unfold bindR at 1, lift at 1, fetch.
  unfold with_process. cbn [process bd_logs]. rewrite Hnet.
  cbn [result latency].
  unfold bindR at 1, res_text. rewrite Htext. unfold retR at 1.
  unfold bindR at 1.
  match goal with
  | |- context [best_effort_log w ?label (bindR nowR (fun t => retR (@?f t)))
                  ?sv0] =>
      destruct (best_effort_log_quiet label f sv0)
        as (sv3 & -> & Hq3 & Hlog)
  end.
  unfold retR. exists sv3. split; [reflexivity | ]. split; [exact Hq3 | ].
  destruct Hlog as [Hlog | (row & Hlog & ->)]; [by left | right].
  eexists. split; [exact Hlog | ].
  unfold log_row. cbn [row_status row_method row_endpoint opt_status
                       opt_method opt_endpoint].
  repeat split.
  unfold ok_or_error.
  by destruct ((200 <=? status res) && (status res <? 300)).
Qed.

(** X28. With a token at hand and an answer of Bright Data whose body can
    be read, [fetchBrightData] sends exactly one request (the given
    method and address, the token as Bearer credential, a Content-Type
    only when a body is given) and returns the status of the answer with
    its body, parsed when it is JSON and as text otherwise. Logging never
    changes the result: whatever Supabase does, at most one row is added,
    with the method, the status class of the answer and, when the caller
    names no endpoint and the address is one under [BASE], the path
    relative to [BASE] as endpoint. *)
Theorem fetchBrightData_reply method url body opts sv token s1 res text lat :
  ensureToken CACHE_TTL_MS net (process sv) = (Token token, s1) ->
  net (now s1) (requests s1) (brightdata_request method url token body)
  = mkReply (Resolved res) lat ->
  text_body res = Some text ->
  exists sv',
    call method url body opts sv
    = (Done (mkBrightDataReply (status res) res
               (default (JStr text) (json_body res))),
       sv') /\
    requests (process sv')
    = mkRequest method url
        ([("Authorization", "Bearer " +:+ token);
          ("Accept", "application/json")]
           ++ match body with
              | Some _ => [("Content-Type", "application/json")]
              | None => []
              end)
        body
        :: requests s1 /\
    env (process sv') = env s1 /\
    cache (process sv') = cache s1 /\
    logged_at_most
      (fun row =>
         row_method row = method_name method /\
         row_status row
         = (if (200 <=? status res) && (status res <? 300) then "ok"
            else "error") /\
         forall path,
           url = BASE +:+ path -> opts ≫= fo_endpoint = None ->
           row_endpoint row = path)
      sv sv'.
Proof.
  intros Htok Hnet Htext.
  destruct (fetchBrightData_resolved method url body opts sv token s1 res
              text lat Htok Hnet Htext)
    as (sv' & Hr & (He & Hc & _ & Hrq) & Hlog).
  exists sv'. cbn [process env cache requests] in He, Hc, Hrq.
  split; [exact Hr | ]. split; [exact Hrq | ].
  split; [exact He | ]. split; [exact Hc | ].
  destruct Hlog as [Hlog | (row & Hlog & Hs & Hm & Hep)]; [by left | right].
  exists row. split; [exact Hlog | ]. split; [exact Hm | ].
  split; [exact Hs | ].
  intros path -> Hopt. rewrite Hep, Hopt. cbn [truthy_env].
  apply remove_first_prefix.
Qed.

(** X29. Without a token (the secret helper returns [null] or the empty
    string) [fetchBrightData] throws "Missing BRIGHTDATA_API_TOKEN (Vault
    and env fallback failed)" before anything is sent to Bright Data: the
    process is as the secret lookup left it, and nothing is logged. *)
Theorem fetchBrightData_requires_token method url body opts sv token s1 :
  getSecret CACHE_TTL_MS net token_path token_key (process sv)
  = (Returns token, s1) ->
  truthy_env token = false ->
  call method url body opts sv
  = (Failed "Error"
       "Missing BRIGHTDATA_API_TOKEN (Vault and env fallback failed)",
     mkServer s1 (bd_logs sv)).
Proof.
  intros Hget Htok. destruct sv as [p logs]. cbn [process bd_logs] in *.
  unfold fetchBrightData.
  unfold bindR at 1, nowR at 1, lift at 1, Date_now, with_process.
  cbn [process bd_logs]. cbv beta iota zeta.
  unfold bindR at 1, ensureTokenR, ensureToken. cbn [process].
  rewrite Hget, Htok. reflexivity.
Qed.

End CallerProperties.

(** ** Logging is best effort *)

Lemma quiet_join a b a' b' :
  process a = process b -> quiet a a' -> quiet b b' -> quiet a' b'.
Proof.
  unfold quiet. intros Hp (E1 & C1 & T1 & R1) (E2 & C2 & T2 & R2).
  repeat split; congruence.
Qed.

Lemma forwarded_same w1 w2 r :
  same_but_supabase w1 w2 -> forwarded w1 r = forwarded w2 r.
Proof.
  intros (Hc & Ht & _ & Hs & Hn).
  unfold forwarded, forward_failure, mirrored.
  by rewrite Hc, Ht, Hs, Hn.
Qed.

(** X30. Supabase has no say in what the deliver-snapshot route answers:
    in two worlds that differ in the Supabase configuration, in whether
    the client can be built and in what becomes of every insert, and from
    servers whose [bd_logs] may differ, the same request gets the same
    response and leaves the same environment, secret cache, clock and
    requests sent. *)
Theorem deliver_response_ignores_supabase w1 w2 ttl net req_json sv1 sv2 :
  same_but_supabase w1 w2 ->
  process sv1 = process sv2 ->
  (POST_deliver_snapshot w1 ttl net req_json sv1).1
  = (POST_deliver_snapshot w2 ttl net req_json sv2).1 /\
  quiet (POST_deliver_snapshot w1 ttl net req_json sv1).2
        (POST_deliver_snapshot w2 ttl net req_json sv2).2.
Proof.
  intros Hw Hp.
  assert (Hcase : req_json = Some JNull \/ req_json <> Some JNull).
  { destruct req_json as [[] | ]; (by left) || (by right). }
  destruct Hcase as [-> | Hnn].
  { destruct (route_null_body w1 ttl net sv1) as (sv1' & -> & Hq1).
    destruct (route_null_body w2 ttl net sv2) as (sv2' & -> & Hq2).
    cbn [fst snd]. destruct Hw as (_ & _ & -> & _).
    split; [reflexivity | by eapply quiet_join]. }
  destruct (get (default (JObj []) req_json) "snapshot_id") as [sid | ]
    eqn:Hsid.
  2:{ rewrite !route_no_snapshot_id by (by rewrite ?Hsid).
      cbn [fst snd]. split; [reflexivity | ].
      eapply quiet_join; [exact Hp | apply quiet_refl | apply quiet_refl]. }
  destruct (truthy sid) eqn:Htruthy.
  2:{ rewrite !route_no_snapshot_id by (by rewrite ?Hsid).
      cbn [fst snd]. split; [reflexivity | ].
      eapply quiet_join; [exact Hp | apply quiet_refl | apply quiet_refl]. }
  destruct (getSecret_returns ttl net "secret/data/dealstream/brightdata"
              "BRIGHTDATA_API_TOKEN" (process sv1))
    as (token & s1 & Hget1).
  pose proof Hget1 as Hget2. rewrite Hp in Hget2.
  destruct (truthy_env token) eqn:Htok.
  2:{ rewrite (route_no_token w1 ttl net req_json sv1 sid token s1),
              (route_no_token w2 ttl net req_json sv2 sid token s1)
        by assumption.
      cbn [fst snd]. split; [reflexivity | ]. by repeat split. }
  apply truthy_env_inv in Htok as (v & -> & Hv).
  destruct (truthy (default (JBool false)
                      (get (default (JObj []) req_json) "dryRun")))
    eqn:Hdry.
  { destruct (route_dry_run w1 ttl net req_json sv1 sid v s1)
      as (sv1' & -> & Hq1 & _); try assumption.
    destruct (route_dry_run w2 ttl net req_json sv2 sid v s1)
      as (sv2' & -> & Hq2 & _); try assumption.
    cbn [fst snd]. split; [reflexivity | ].
    eapply quiet_join; [ | exact Hq1 | exact Hq2]. reflexivity. }
  destruct (net (now s1) (requests s1)
              (deliver_request sid v
                 (default (JObj [])
                    (get (default (JObj []) req_json) "delivery_params"))))
    as [r lat] eqn:Hnet.
  destruct (route_forward w1 ttl net req_json sv1 sid v s1 r lat)
    as (sv1' & -> & Hq1 & _); try assumption.
  destruct (route_forward w2 ttl net req_json sv2 sid v s1 r lat)
    as (sv2' & -> & Hq2 & _); try assumption.
  cbn [fst snd]. split; [by apply forwarded_same | ].
  eapply quiet_join; [ | exact Hq1 | exact Hq2]. reflexivity.
Qed.

(** * The further properties on sample processes *)


(** The login is answered 200 with a body that is not JSON. *)
Lemma login_without_token_falls_back_witness :
  exists s',
    getSecret default_CACHE_TTL_MS (refusing 200) brightdata_path "K"
      (boot approle_vars)
    = (Returns (Some "from-env"), s') /\
    requests s' = [login_request "http://vault:8200" "r" "s"].
Proof.
  eexists. split.
  - rewrite (login_without_token_falls_back default_CACHE_TTL_MS
               (refusing 200) brightdata_path "K" (boot approle_vars)
               "http://vault:8200" "r" "s"
               (mkResponse 200 None (Some "denied")) 7);
      first [ discriminate | vm_compute; reflexivity ].
  - vm_compute. reflexivity.
Defined.

(** Only VAULT_ADDR is set. *)
Lemma no_credential_no_traffic_witness :
  (getSecret default_CACHE_TTL_MS unreachable brightdata_path "K"
     (boot addr_only_vars)).1
  = Returns (Some "from-env") /\
  requests
    (getSecret default_CACHE_TTL_MS unreachable brightdata_path "K"
       (boot addr_only_vars)).2
  = [].
Proof.
  destruct (no_credential_no_traffic default_CACHE_TTL_MS unreachable
              brightdata_path "K" (boot addr_only_vars))
    as [Hcall Hreq]; try (vm_compute; reflexivity).
  rewrite Hcall. split; [vm_compute; reflexivity | exact Hreq].
Defined.


(** After a fallback and a wait the entry expires at 31000, within the
    bound 1005 + 300000. *)
Lemma cache_bounded_run_witness :
  31000
  <= now (run default_CACHE_TTL_MS unreachable
            [Resolve brightdata_path "K"; Wait 5] (boot storeless_vars))
     + default_CACHE_TTL_MS.
Proof.
  apply (cache_bounded_run default_CACHE_TTL_MS unreachable
           [Resolve brightdata_path "K"; Wait 5] (boot storeless_vars)
           brightdata_path "K" (mkCached (Some "V") 31000));
    vm_compute; reflexivity.
Defined.

(** TTL 0: the second of two calls in a row resolves afresh. *)
Lemma nonpositive_ttl_never_hits_witness :
  exists v s',
    getSecret 0 unreachable "p" "K"
      (run 0 unreachable [Resolve "p" "K"] (boot storeless_vars))
    = (Returns v, s') /\
    resolved_afresh
      (run 0 unreachable [Resolve "p" "K"] (boot storeless_vars)) s'.
Proof.
  refine (nonpositive_ttl_never_hits 0 unreachable [Resolve "p" "K"]
            (boot storeless_vars) "p" "K" _ _).
  - apply Z.le_refl.
  - exact eq_refl.
Defined.



(** The address with and without its final slash. *)
Lemma request_urls_normalised_witness :
  read_request "http://vault:8200/" "secret/app" (JStr "t")
  = read_request "http://vault:8200" "secret/app" (JStr "t").
Proof.
  apply (request_urls_normalised "http://vault:8200" "secret/app"
           (JStr "t") "r" "s").
  intros b H. apply (f_equal (fun x => list_ascii_of_string x)) in H.
  rewrite chars_app in H. apply (f_equal (@rev ascii)) in H.
  rewrite rev_app_distr in H. vm_compute in H. discriminate.
Defined.

(** Two keys at one path. *)
Lemma entries_independent_without_hash_witness :
  cacheKey brightdata_path "A" <> cacheKey brightdata_path "B" /\
  cache
    (getSecret default_CACHE_TTL_MS unreachable brightdata_path "A"
       (cached_process (cacheKey brightdata_path "B") 1001)).2
  !! cacheKey brightdata_path "B"
  = cache (cached_process (cacheKey brightdata_path "B") 1001)
    !! cacheKey brightdata_path "B".
Proof.
  apply (entries_independent_without_hash default_CACHE_TTL_MS unreachable
           brightdata_path "A" brightdata_path "B");
    first [ discriminate | vm_compute; reflexivity ].
Defined.

(** The slash of ["a/b"] leaves as [%2F]. *)
Lemma encodeURIComponent_safe_witness :
  encodeURIComponent "a/b" = "a%2Fb" /\
  ("%"%char <> "/"%char).
Proof.
  split; [vm_compute; reflexivity | ].
  apply (encodeURIComponent_safe "a/b" "%"%char).
  vm_compute. auto.
Defined.

Lemma encodeURIComponent_plain_witness :
  snapshotMetaUrl "snap-123"
  = BASE +:+ "/snapshots/" +:+ "snap-123" +:+ "/meta".
Proof.
  apply (encodeURIComponent_plain "snap-123").
  vm_compute. repeat constructor.
Defined.


(** The store has the collection without the token: the first call hands
    out the environment token, a call one second later throws. *)
Lemma ensureToken_fails_on_cached_absence_witness :
  exists s',
    ensureToken default_CACHE_TTL_MS (serving (kv2_body "OTHER" "x"))
      (boot brightdata_vars)
    = (Token "bd-from-env", s') /\
    ensureToken default_CACHE_TTL_MS (serving (kv2_body "OTHER" "x"))
      (advance 1000 s')
    = (MissingToken, advance 1000 s').
Proof.
  destruct (ensureToken_fails_on_cached_absence default_CACHE_TTL_MS
              (serving (kv2_body "OTHER" "x")) (boot brightdata_vars)
              (JObj [("OTHER", JStr "x")])
              (fetchFromVault (serving (kv2_body "OTHER" "x"))
                 brightdata_path (boot brightdata_vars)).2
              "bd-from-env")
    as (s' & Hfirst & Hlater);
    try (vm_compute; reflexivity); [discriminate | ].
  exists s'. split; [exact Hfirst | ].
  apply (Hlater (advance 1000 s')); [reflexivity | ].
  assert (Hnow : now s' = 1020).
  { apply (f_equal snd) in Hfirst. cbn [snd] in Hfirst. rewrite <- Hfirst.
    vm_compute. reflexivity. }
  unfold advance. cbn [now]. rewrite Hnow. vm_compute. reflexivity.
Defined.

(** A dry run of a request for 500 rows asks for one. *)
Lemma dry_run_limit_at_most_one_witness :
  limit
    (applyDryRunGuard (Some (mkPayload (Some 500) [("dataset_id", JStr "d")]))
       (Some (mkGuardOpts (Some true) None)))
  = Some 1.
Proof.
  destruct (dry_run_limit_at_most_one
              (Some (mkPayload (Some 500) [("dataset_id", JStr "d")])) None)
    as (l & Hl & _ & _ & Hbig & _).
  rewrite Hl. f_equal. apply (Hbig 500); [reflexivity | lia].
Defined.

(** A soft cap of 100 on a request for 500 rows. *)
Lemma guard_never_raises_limit_witness :
  exists l,
    limit
      (applyDryRunGuard (Some (mkPayload (Some 500) []))
         (Some (mkGuardOpts None (Some 100))))
    = Some l /\ l <= 500.
Proof.
  apply (guard_never_raises_limit (Some (mkPayload (Some 500) []))
           (Some (mkGuardOpts None (Some 100)))).
  reflexivity.
Defined.

(** * The properties of the callers on sample servers *)

(** An empty [snapshot_id]. *)
Lemma deliver_requires_snapshot_id_witness :
  POST_deliver_snapshot logging_world default_CACHE_TTL_MS accepting
    (Some (JObj [("snapshot_id", JStr "")])) token_server
  = (NextResponse_json (JObj [("error", JStr "snapshot_id is required")]) 400,
     token_server).
Proof.
  apply (deliver_requires_snapshot_id logging_world default_CACHE_TTL_MS
           accepting (Some (JObj [("snapshot_id", JStr "")])) token_server);
    [discriminate | vm_compute; reflexivity].
Defined.

(** No store and no token in the environment. *)
Lemma deliver_requires_token_witness :
  (POST_deliver_snapshot logging_world default_CACHE_TTL_MS accepting
     (Some (deliver_body false)) tokenless_server).1
  = NextResponse_json
      (JObj [("error",
              JStr "Missing BRIGHTDATA_API_TOKEN (Vault/env fallback)")])
      500.
Proof.
  rewrite (deliver_requires_token logging_world default_CACHE_TTL_MS
             accepting (Some (deliver_body false)) tokenless_server
             (JStr "s_1") None
             (getSecret default_CACHE_TTL_MS accepting brightdata_path
                "BRIGHTDATA_API_TOKEN" (process tokenless_server)).2);
    vm_compute; reflexivity.
Defined.





(** The meta data of a snapshot, asked for without options: the row, if
    there is one, names the path under [BASE]. *)
Lemma fetchBrightData_reply_witness :
  exists sv',
    fetchBrightData logging_world default_CACHE_TTL_MS accepting GET
      (snapshotMetaUrl "s_1") None None token_server
    = (Done (mkBrightDataReply 202 (mkResponse 202 None (Some "queued"))
               (JStr "queued")),
       sv') /\
    logged_at_most (fun row => row_endpoint row = "/snapshots/s_1/meta")
      token_server sv'.
Proof.
  destruct (fetchBrightData_reply logging_world default_CACHE_TTL_MS
              accepting GET (snapshotMetaUrl "s_1") None None token_server
              "bd-token"
              (ensureToken default_CACHE_TTL_MS accepting
                 (process token_server)).2
              (mkResponse 202 None (Some "queued")) "queued" 35)
    as (sv' & Hr & _ & _ & _ & Hlog);
    try (vm_compute; reflexivity).
  exists sv'. split; [exact Hr | ].
  destruct Hlog as [Hlog | (row & Hlog & _ & _ & Hpath)]; [by left | right].
  exists row. split; [exact Hlog | ].
  apply Hpath; vm_compute; reflexivity.
Defined.

(** No store and no token in the environment. *)
Lemma fetchBrightData_requires_token_witness :
  (fetchBrightData logging_world default_CACHE_TTL_MS accepting GET
     (snapshotMetaUrl "s_1") None None tokenless_server).1
  = Failed "Error"
      "Missing BRIGHTDATA_API_TOKEN (Vault and env fallback failed)".
Proof.
  rewrite (fetchBrightData_requires_token logging_world
             default_CACHE_TTL_MS accepting GET (snapshotMetaUrl "s_1")
             None None tokenless_server None
             (getSecret default_CACHE_TTL_MS accepting brightdata_path
                "BRIGHTDATA_API_TOKEN" (process tokenless_server)).2);
    vm_compute; reflexivity.
Defined.

(** With and without Supabase the real run is answered alike. *)
Lemma deliver_response_ignores_supabase_witness :
  (POST_deliver_snapshot logging_world default_CACHE_TTL_MS accepting
     (Some (deliver_body false)) token_server).1
  = (POST_deliver_snapshot unlogged_world default_CACHE_TTL_MS accepting
       (Some (deliver_body false)) token_server).1.
Proof.
  apply (deliver_response_ignores_supabase logging_world unlogged_world
           default_CACHE_TTL_MS accepting (Some (deliver_body false))
           token_server token_server).
  - repeat split.
  - reflexivity.
Defined.
